(** * A model of the [metrics] package

    The package forwards application metrics to Google Cloud Monitoring.
    It has two revisions of one file: the earlier one exports
    [PushCounter], the later one [PushMetric]; both share the package
    globals, [getProjectID], [getFunctionName] and [initClient].

    The Go code is embedded as functions over an explicit process state:
    the environment variables, the wall clock, the heap of Go maps (maps
    are reference values, and the request built by a call aliases the
    caller's label map), the three package globals, and the trace of what
    the process did to the outside (log lines, client constructions, remote
    writes). *)

From Stdlib Require Import ZArith Lia List.
From Stdlib Require Import Floats.SpecFloat.
From stdpp Require Import base option list strings gmap.

Local Open Scope string_scope.
Local Open Scope list_scope.
Local Open Scope Z_scope.

(** ** Values a caller can put in an [interface{}] *)

(** A Go float is an IEEE 754 value; [spec_float] gives sign, mantissa and
    exponent.  A [float32] is one that is valid for precision 24 and
    maximal exponent 128, a [float64] for 53 and 1024. *)
Definition is_float32 (f : spec_float) : bool := valid_binary 24 128 f.
Definition is_float64 (f : spec_float) : bool := valid_binary 53 1024 f.

(** The dynamic type and value held by the [value interface{}] argument.
    Integers carry their mathematical value; [VOther] stands for every
    type that is not a predeclared scalar (structs, slices, named types,
    ...), with the name [%T] prints for it. *)
Inductive GoValue : Type :=
  | VNil
  | VBool (b : bool)
  | VInt (z : Z)
  | VInt8 (z : Z)
  | VInt16 (z : Z)
  | VInt32 (z : Z)
  | VInt64 (z : Z)
  | VUint (z : Z)
  | VUint8 (z : Z)
  | VUint16 (z : Z)
  | VUint32 (z : Z)
  | VUint64 (z : Z)
  | VFloat32 (f : spec_float)
  | VFloat64 (f : spec_float)
  | VString (s : string)
  | VOther (type_name : string).

(** What [%T] prints. *)
Definition type_name_of (v : GoValue) : string :=
  match v with
  | VNil => "<nil>"
  | VBool _ => "bool"
  | VInt _ => "int"
  | VInt8 _ => "int8"
  | VInt16 _ => "int16"
  | VInt32 _ => "int32"
  | VInt64 _ => "int64"
  | VUint _ => "uint"
  | VUint8 _ => "uint8"
  | VUint16 _ => "uint16"
  | VUint32 _ => "uint32"
  | VUint64 _ => "uint64"
  | VFloat32 _ => "float32"
  | VFloat64 _ => "float64"
  | VString _ => "string"
  | VOther n => n
  end.

(** The range of a signed integer of [w] bits. *)
Definition in_signed (w : Z) (z : Z) : Prop := - 2 ^ (w - 1) <= z < 2 ^ (w - 1).

(** A value a Go program can really hold: integers within the range of
    their type ([int] is 64 bits wide on the platforms the package runs
    on), floats valid for their format. *)
Definition well_formed (v : GoValue) : Prop :=
  match v with
  | VInt z | VInt64 z => in_signed 64 z
  | VInt8 z => in_signed 8 z
  | VInt16 z => in_signed 16 z
  | VInt32 z => in_signed 32 z
  | VUint z | VUint64 z => 0 <= z < 2 ^ 64
  | VUint8 z => 0 <= z < 2 ^ 8
  | VUint16 z => 0 <= z < 2 ^ 16
  | VUint32 z => 0 <= z < 2 ^ 32
  | VFloat32 f => is_float32 f = true
  | VFloat64 f => is_float64 f = true
  | VNil | VBool _ | VString _ | VOther _ => True
  end.

(** ** Conversions *)

(** [int64(v)] on an integer: the value modulo 2^64, read as signed. *)
Definition int64 (z : Z) : Z := (z + 2 ^ 63) mod 2 ^ 64 - 2 ^ 63.

(** [float64(v)] on a [float32]: the value rounded to the destination
    format (to nearest, ties to even). *)
Definition float64 (f : spec_float) : spec_float :=
  match f with
  | S754_finite s m e => binary_round 53 1024 s m e
  | _ => f
  end.

(** The number a finite float denotes, scaled by 2^1074 so that it is an
    integer for every [float32] and [float64] (the smallest exponent of a
    [float64] is -1074).  Zeros, infinities and NaN have no entry. *)
Definition scaled_value (f : spec_float) : option Z :=
  match f with
  | S754_finite s m e => Some (cond_Zopp s (Zpos m * 2 ^ (e + 1074)))
  | _ => None
  end.

(** ** Messages of the monitoring API *)

(** A Go map value is a reference: [None] is the nil map. *)
Definition loc := nat.
Definition mapref := option loc.

(** A [*monitoring.MetricClient] that is not nil, a [context.Context] and
    an [error] that is not nil.  The package only passes them on, so a
    handle and a context are identifiers, and an error is its message. *)
Inductive Client : Type := MetricClient (id : nat).
Definition Context := nat.
Definition error := string.

Module timestamppb.
Record Timestamp := New { AsTime : Z }.
End timestamppb.

Module mpb.
Record Metric := { Type_ : string; Labels : mapref }.
End mpb.

Module gcprpb.
Record MonitoredResource := { Type_ : string; Labels : gmap string string }.
End gcprpb.

Module monpb.
Inductive TypedValue : Type :=
  | TypedValue_Int64Value (Int64Value : Z)
  | TypedValue_DoubleValue (DoubleValue : spec_float)
  | TypedValue_StringValue (StringValue : string).
Record TimeInterval := { EndTime : timestamppb.Timestamp }.
Record Point := { Interval : TimeInterval; Value : TypedValue }.
Record TimeSeries := {
  Metric : mpb.Metric;
  Resource : gcprpb.MonitoredResource;
  Points : list Point
}.
Record CreateTimeSeriesRequest := {
  Name : string;
  TimeSeries_ : list TimeSeries
}.
End monpb.

(** ** Process state *)

(** What the process does that is visible from outside, oldest first.  A
    remote write records the request together with the contents its label
    map has at the time of the call: that is what goes on the wire. *)
Inductive event : Type :=
  | EvNewMetricClient (ctx : Context)
  | EvLog (msg : string)
  | EvCreateTimeSeries (c : Client) (ctx : Context)
      (req : monpb.CreateTimeSeriesRequest) (wire_labels : gmap string string).

Record proc := {
  environ : gmap string string;
  wallclock : Z;
  heap : gmap loc (gmap string string);
  clientInit : bool;
  metricClient : option Client;
  clientErr : option error;
  trace : list event
}.

Definition set_heap (h : gmap loc (gmap string string)) (st : proc) : proc :=
  {| environ := environ st; wallclock := wallclock st; heap := h;
     clientInit := clientInit st; metricClient := metricClient st;
     clientErr := clientErr st; trace := trace st |}.

Definition set_clientInit (b : bool) (st : proc) : proc :=
  {| environ := environ st; wallclock := wallclock st; heap := heap st;
     clientInit := b; metricClient := metricClient st;
     clientErr := clientErr st; trace := trace st |}.

Definition set_client (c : option Client) (e : option error) (st : proc) : proc :=
  {| environ := environ st; wallclock := wallclock st; heap := heap st;
     clientInit := clientInit st; metricClient := c;
     clientErr := e; trace := trace st |}.

Definition emit (ev : event) (st : proc) : proc :=
  {| environ := environ st; wallclock := wallclock st; heap := heap st;
     clientInit := clientInit st; metricClient := metricClient st;
     clientErr := clientErr st; trace := trace st ++ [ev] |}.

(** The program changing its environment between two calls
    ([os.Setenv], [os.Unsetenv], [os.Clearenv]). *)
Definition with_environ (env : gmap string string) (st : proc) : proc :=
  {| environ := env; wallclock := wallclock st;
     heap := heap st; clientInit := clientInit st;
     metricClient := metricClient st; clientErr := clientErr st;
     trace := trace st |}.

Definition Setenv (key value : string) (st : proc) : proc :=
  with_environ (<[key := value]> (environ st)) st.

Definition Unsetenv (key : string) (st : proc) : proc :=
  with_environ (delete key (environ st)) st.

(** The contents of the map behind a reference; a reference the heap does
    not hold reads as the empty map. *)
Definition deref (h : gmap loc (gmap string string)) (l : loc) : gmap string string :=
  default ∅ (h !! l).

(** ** Computations: state passing, with Go's panics *)

Inductive result (A : Type) : Type :=
  | Ok (a : A)
  | Panic (msg : string).
Arguments Ok {A} a.
Arguments Panic {A} msg.

Definition M (A : Type) : Type := proc -> result A * proc.

#[export] Instance M_ret : MRet M := fun A a st => (Ok a, st).
#[export] Instance M_bind : MBind M := fun A B k c st =>
  match c st with
  | (Ok a, st') => k a st'
  | (Panic msg, st') => (Panic msg, st')
  end.

Definition gets {A : Type} (f : proc -> A) : M A := fun st => (Ok (f st), st).
Definition modify (f : proc -> proc) : M unit := fun st => (Ok tt, f st).
Definition panic {A : Type} (msg : string) : M A := fun st => (Panic msg, st).

(** [os.Getenv]: the value of the variable, empty when it is not set. *)
Definition Getenv (key : string) : M string :=
  gets (fun st => default "" (environ st !! key)).

Definition time_Now : M Z := gets wallclock.

Definition log_Printf (msg : string) : M unit := modify (emit (EvLog msg)).

(** [v, ok := m[key]]: reading the nil map finds nothing. *)
Definition map_index (m : mapref) (key : string) : M (string * bool) :=
  match m with
  | None => mret ("", false)
  | Some l =>
      gets (fun st =>
        match deref (heap st) l !! key with
        | Some v => (v, true)
        | None => ("", false)
        end)
  end.

(** [m[key] = v]: writing to the nil map panics. *)
Definition map_assign (m : mapref) (key v : string) : M unit :=
  match m with
  | None => panic "assignment to entry in nil map"
  | Some l => modify (fun st => set_heap (<[l := <[key := v]> (deref (heap st) l)]> (heap st)) st)
  end.

(** What goes on the wire for a label map. *)
Definition wire_of (h : gmap loc (gmap string string)) (m : mapref) : gmap string string :=
  match m with
  | None => ∅
  | Some l => deref h l
  end.

Section Metrics.

(** The monitoring SDK and the service behind it are outside the
    repository: what a client construction and a remote write answer is
    left open, and may depend on everything that happened before. *)
Variable monitoring_NewMetricClient : proc -> Context -> option Client * option error.
Variable monitoring_CreateTimeSeries :
  proc -> Client -> Context -> monpb.CreateTimeSeriesRequest -> option error.

Definition NewMetricClient (ctx : Context) : M (option Client * option error) :=
  fun st => (Ok (monitoring_NewMetricClient st ctx), emit (EvNewMetricClient ctx) st).

Definition CreateTimeSeries (c : Client) (ctx : Context)
    (req : monpb.CreateTimeSeriesRequest) : M (option error) :=
  fun st =>
    let labels :=
      match monpb.TimeSeries_ req with
      | ts :: _ => wire_of (heap st) (mpb.Labels (monpb.Metric ts))
      | [] => ∅
      end in
    (Ok (monitoring_CreateTimeSeries st c ctx req),
     emit (EvCreateTimeSeries c ctx req labels) st).

(** [clientInit.Do(f)]: runs [f] unless it has run before. *)
Definition clientInit_Do (f : M unit) : M unit :=
  fun st =>
    if clientInit st then (Ok tt, st)
    else let '(r, st') := f st in (r, set_clientInit true st').

Definition getProjectID : M string :=
  v ← Getenv "GOOGLE_CLOUD_PROJECT";
  if decide (v ≠ "") then mret v else mret "p48-development".

Definition getFunctionName : M string :=
  v ← Getenv "FUNCTION_NAME";
  if decide (v ≠ "") then mret v else mret "Buy".

Definition initClient (ctx : Context) : M unit :=
  clientInit_Do (
    r ← NewMetricClient ctx;
    modify (set_client r.1 r.2);;
    e ← gets clientErr;
    match e with
    | Some err =>
        log_Printf ("[metrics] disabled – failed to create Monitoring client: " +:+ err)
    | None => mret tt
    end).

(** The type switch of [PushMetric]; [None] is its default branch. *)
Definition typedValueOf (value : GoValue) : option monpb.TypedValue :=
  match value with
  | VInt v => Some (monpb.TypedValue_Int64Value (int64 v))
  | VInt32 v => Some (monpb.TypedValue_Int64Value (int64 v))
  | VInt64 v => Some (monpb.TypedValue_Int64Value v)
  | VFloat32 v => Some (monpb.TypedValue_DoubleValue (float64 v))
  | VFloat64 v => Some (monpb.TypedValue_DoubleValue v)
  | VString v => Some (monpb.TypedValue_StringValue v)
  | VBool v =>
      let intVal := if v then 1 else 0 in
      Some (monpb.TypedValue_Int64Value intVal)
  | _ => None
  end.

Definition PushMetric (ctx : Context) (metricName : string) (value : GoValue)
    (labels : mapref) : M unit :=
  initClient ctx;;
  client ← gets metricClient;
  match client with
  | None => mret tt
  | Some c =>
      projectID ← getProjectID;
      functionName ← getFunctionName;
      t ← time_Now;
      let now := timestamppb.New t in
      let projectName := "projects/" +:+ projectID in
      '(_, ok) ← map_index labels "function_name";
      (if ok : bool then mret tt else map_assign labels "function_name" functionName);;
      match typedValueOf value with
      | None => log_Printf ("[metrics] unsupported value type: " +:+ type_name_of value)
      | Some typedValue =>
          let point :=
            {| monpb.Interval := {| monpb.EndTime := now |};
               monpb.Value := typedValue |} in
          let ts :=
            {| monpb.Metric :=
                 {| mpb.Type_ := "custom.googleapis.com/" +:+ metricName;
                    mpb.Labels := labels |};
               monpb.Resource :=
                 {| gcprpb.Type_ := "global";
                    gcprpb.Labels := {[ "project_id" := projectID ]} |};
               monpb.Points := [point] |} in
          let req :=
            {| monpb.Name := projectName; monpb.TimeSeries_ := [ts] |} in
          err ← CreateTimeSeries c ctx req;
          match err with
          | Some e => log_Printf ("[metrics] could not write time series: " +:+ e)
          | None => mret tt
          end
      end
  end.

Definition PushCounter (ctx : Context) (metricName : string) (labels : mapref) : M unit :=
  initClient ctx;;
  client ← gets metricClient;
  match client with
  | None => mret tt
  | Some c =>
      projectID ← getProjectID;
      functionName ← getFunctionName;
      t ← time_Now;
      let now := timestamppb.New t in
      let projectName := "projects/" +:+ projectID in
      '(_, ok) ← map_index labels "function_name";
      (if ok : bool then mret tt else map_assign labels "function_name" functionName);;
      let point :=
        {| monpb.Interval := {| monpb.EndTime := now |};
           monpb.Value := monpb.TypedValue_Int64Value 1 |} in
      let ts :=
        {| monpb.Metric :=
             {| mpb.Type_ := "custom.googleapis.com/" +:+ metricName;
                mpb.Labels := labels |};
           monpb.Resource :=
             {| gcprpb.Type_ := "global";
                gcprpb.Labels := {[ "project_id" := projectID ]} |};
           monpb.Points := [point] |} in
      let req :=
        {| monpb.Name := projectName; monpb.TimeSeries_ := [ts] |} in
      err ← CreateTimeSeries c ctx req;
      match err with
      | Some e => log_Printf ("[metrics] could not write time series: " +:+ e)
      | None => mret tt
      end
  end.

End Metrics.


(** ** Vocabulary for the statements *)

(** The value of a configuration variable as the two getters resolve it:
    the variable's value when it is set and not empty, else the default. *)
Definition resolve (env : gmap string string) (key dflt : string) : string :=
  match env !! key with
  | Some v => if decide (v ≠ "") then v else dflt
  | None => dflt
  end.

Definition projectID_of (st : proc) : string :=
  resolve (environ st) "GOOGLE_CLOUD_PROJECT" "p48-development".

Definition functionName_of (st : proc) : string :=
  resolve (environ st) "FUNCTION_NAME" "Buy".

(** The remote writes of a trace: each request with its labels on the wire. *)
Fixpoint writes (tr : list event) : list (monpb.CreateTimeSeriesRequest * gmap string string) :=
  match tr with
  | [] => []
  | EvCreateTimeSeries _ _ req w :: tr' => (req, w) :: writes tr'
  | _ :: tr' => writes tr'
  end.

(** The client constructions of a trace. *)
Fixpoint constructions (tr : list event) : list Context :=
  match tr with
  | [] => []
  | EvNewMetricClient ctx :: tr' => ctx :: constructions tr'
  | _ :: tr' => constructions tr'
  end.

(** The log lines of a trace. *)
Fixpoint log_lines (tr : list event) : list string :=
  match tr with
  | [] => []
  | EvLog msg :: tr' => msg :: log_lines tr'
  | _ :: tr' => log_lines tr'
  end.

(** The value kinds the type switch has a case for. *)
Definition supported (v : GoValue) : bool :=
  match v with
  | VInt _ | VInt32 _ | VInt64 _ | VFloat32 _ | VFloat64 _ | VString _ | VBool _ => true
  | _ => false
  end.

(** The label map after the injection step, for a map that is not nil. *)
Definition injected (functionName : string) (m : gmap string string) : gmap string string :=
  match m !! "function_name" with
  | Some _ => m
  | None => <["function_name" := functionName]> m
  end.

(** The request the two entry points build. *)
Definition request_for (projectID metricName : string) (now : Z)
    (typedValue : monpb.TypedValue) (labels : mapref) : monpb.CreateTimeSeriesRequest :=
  {| monpb.Name := "projects/" +:+ projectID;
     monpb.TimeSeries_ :=
       [ {| monpb.Metric :=
              {| mpb.Type_ := "custom.googleapis.com/" +:+ metricName;
                 mpb.Labels := labels |};
            monpb.Resource :=
              {| gcprpb.Type_ := "global";
                 gcprpb.Labels := {[ "project_id" := projectID ]} |};
            monpb.Points :=
              [ {| monpb.Interval := {| monpb.EndTime := timestamppb.New now |};
                   monpb.Value := typedValue |} ] |} ] |}.


(** A process that has not called into the package yet. *)
Definition fresh (env : gmap string string) (now : Z)
    (h : gmap loc (gmap string string)) : proc :=
  {| environ := env; wallclock := now; heap := h; clientInit := false;
     metricClient := None; clientErr := None; trace := [] |}.

(** [d] is the number [f] is: the same value for a finite [f], the same
    zero, infinity or NaN else. *)
Definition same_number (f d : spec_float) : Prop :=
  match f with
  | S754_finite _ _ _ => scaled_value d = scaled_value f
  | _ => d = f
  end.

(** What a computation adds to the trace, and how it ends. *)
Definition events_of {A : Type} (c : M A) (st : proc) : list event :=
  drop (length (trace st)) (trace (c st).2).

(** The calls a program can make, and a sequence of them. *)
Inductive call : Type :=
  | CallPushMetric (ctx : Context) (metricName : string) (value : GoValue) (labels : mapref)
  | CallPushCounter (ctx : Context) (metricName : string) (labels : mapref).

Definition call_ctx (c : call) : Context :=
  match c with
  | CallPushMetric ctx _ _ _ | CallPushCounter ctx _ _ => ctx
  end.

Definition call_labels (c : call) : mapref :=
  match c with
  | CallPushMetric _ _ _ labels | CallPushCounter _ _ labels => labels
  end.

Definition call_name (c : call) : string :=
  match c with
  | CallPushMetric _ metricName _ _ | CallPushCounter _ metricName _ => metricName
  end.

(** The typed value of the point the call builds, when it builds one. *)
Definition call_typed (c : call) : option monpb.TypedValue :=
  match c with
  | CallPushMetric _ _ value _ => typedValueOf value
  | CallPushCounter _ _ _ => Some (monpb.TypedValue_Int64Value 1)
  end.

(** Stand-ins for the SDK, for running the model on examples. *)
Definition dial_ok : proc -> Context -> option Client * option error :=
  fun _ _ => (Some (MetricClient 1), None).

Definition dial_fails : proc -> Context -> option Client * option error :=
  fun _ _ => (None, Some "could not find default credentials").

Definition write_ok :
    proc -> Client -> Context -> monpb.CreateTimeSeriesRequest -> option error :=
  fun _ _ _ _ => None.

Definition write_fails :
    proc -> Client -> Context -> monpb.CreateTimeSeriesRequest -> option error :=
  fun _ _ _ _ => Some "rpc error: code = Unavailable".

Section Programs.

Variable monitoring_NewMetricClient : proc -> Context -> option Client * option error.
Variable monitoring_CreateTimeSeries :
  proc -> Client -> Context -> monpb.CreateTimeSeriesRequest -> option error.

Definition do_call (c : call) : M unit :=
  match c with
  | CallPushMetric ctx metricName value labels =>
      PushMetric monitoring_NewMetricClient monitoring_CreateTimeSeries
        ctx metricName value labels
  | CallPushCounter ctx metricName labels =>
      PushCounter monitoring_NewMetricClient monitoring_CreateTimeSeries
        ctx metricName labels
  end.

(** A panic that nothing recovers ends the program: the calls after it
    do not run. *)
Fixpoint do_calls (cs : list call) : M unit :=
  match cs with
  | [] => mret tt
  | c :: cs' => do_call c;; do_calls cs'
  end.

(** The client handle a call works with: the one in place when
    [clientInit] has run, else the one the construction returns. *)
Definition client_for (st : proc) (ctx : Context) : option Client :=
  if clientInit st then metricClient st else (monitoring_NewMetricClient st ctx).1.

End Programs.

(** Values for the examples: a label map at reference 0 and an empty one
    at reference 1, no configuration variable set, and the [float32]
    nearest to pi. *)
Definition ex_proc : proc :=
  fresh ∅ 1700000000 {[ 0%nat := {[ "sku" := "abc123" ]}; 1%nat := ∅ ]}.

Definition ex_float32 : spec_float := S754_finite false 13176795 (-22).

(** The example process after a first call that found the construction
    failing. *)
Definition ex_disabled : proc :=
  (PushCounter dial_fails write_ok 7%nat "purchase_attempt" (Some 0%nat) ex_proc).2.

(** ** Goroutines racing through [initClient]

    The package globals are shared by every goroutine that emits a metric.
    [sync.Once] is a flag [done] and a mutex [m]: [Do(f)] returns at once
    when [done] is set; else it takes [m], looks at [done] again, runs [f]
    and sets [done] when it is still clear, and releases [m].  The model
    interleaves the goroutines one such step at a time.  A call is followed
    up to its test [metricClient == nil]; what comes after touches no
    package global. *)

Inductive pc : Type :=
  | Idle          (* between two calls *)
  | AtDo          (* clientInit.Do: the first look at done *)
  | AtLock        (* waiting for m.Lock() *)
  | AtCheck       (* holding m: the second look at done *)
  | AtConstruct   (* holding m: about to run the function literal *)
  | AtStoreDone   (* holding m: the deferred done.Store(1) *)
  | AtUnlock      (* holding m: the deferred m.Unlock() *)
  | AtTest.       (* back in the entry point: if metricClient == nil *)

Record goroutine := {
  g_ctx : Context;
  g_pc : pc;
  g_seen : list (option Client)   (* the handle each finished call found *)
}.

Record globals := {
  o_done : bool;
  o_m : option nat;                (* the goroutine holding the mutex *)
  o_metricClient : option Client;
  o_clientErr : option error;
  o_log : list string;
  o_attempts : list Context        (* the calls of NewMetricClient so far *)
}.

Record config := { shared : globals; pool : list goroutine }.

Definition at_pc (p : pc) (g : goroutine) : goroutine :=
  {| g_ctx := g_ctx g; g_pc := p; g_seen := g_seen g |}.

Definition spawn (ctxs : list Context) : config :=
  {| shared := {| o_done := false; o_m := None; o_metricClient := None;
                  o_clientErr := None; o_log := []; o_attempts := [] |};
     pool := (fun ctx => {| g_ctx := ctx; g_pc := Idle; g_seen := [] |}) <$> ctxs |}.

Section Goroutines.

(** What [monitoring.NewMetricClient] answers, given the attempts before. *)
Variable dial : list Context -> Context -> option Client * option error.

(** One step of goroutine [i]; the configuration is unchanged when there
    is no such goroutine or when it waits for the mutex. *)
Definition step (i : nat) (cfg : config) : config :=
  let s := shared cfg in
  match pool cfg !! i with
  | None => cfg
  | Some g =>
      let move (p : pc) (s' : globals) :=
        {| shared := s'; pool := <[i := at_pc p g]> (pool cfg) |} in
      match g_pc g with
      | Idle => move AtDo s
      | AtDo => if o_done s then move AtTest s else move AtLock s
      | AtLock =>
          match o_m s with
          | Some _ => cfg
          | None =>
              move AtCheck
                {| o_done := o_done s; o_m := Some i;
                   o_metricClient := o_metricClient s; o_clientErr := o_clientErr s;
                   o_log := o_log s; o_attempts := o_attempts s |}
          end
      | AtCheck => if o_done s then move AtUnlock s else move AtConstruct s
      | AtConstruct =>
          let r := dial (o_attempts s) (g_ctx g) in
          move AtStoreDone
            {| o_done := o_done s; o_m := o_m s;
               o_metricClient := r.1; o_clientErr := r.2;
               o_log :=
                 match r.2 with
                 | Some err =>
                     o_log s ++
                     ["[metrics] disabled – failed to create Monitoring client: " +:+ err]
                 | None => o_log s
                 end;
               o_attempts := o_attempts s ++ [g_ctx g] |}
      | AtStoreDone =>
          move AtUnlock
            {| o_done := true; o_m := o_m s;
               o_metricClient := o_metricClient s; o_clientErr := o_clientErr s;
               o_log := o_log s; o_attempts := o_attempts s |}
      | AtUnlock =>
          move AtTest
            {| o_done := o_done s; o_m := None;
               o_metricClient := o_metricClient s; o_clientErr := o_clientErr s;
               o_log := o_log s; o_attempts := o_attempts s |}
      | AtTest =>
          {| shared := s;
             pool := <[i := {| g_ctx := g_ctx g; g_pc := Idle;
                               g_seen := g_seen g ++ [o_metricClient s] |}]> (pool cfg) |}
      end
  end.

(** A schedule names the goroutine that moves at each step. *)
Definition run (sched : list nat) (cfg : config) : config :=
  foldl (fun c i => step i c) cfg sched.

(** What holds of goroutine [i] at each point of the code. *)
Definition at_point (s : globals) (i : nat) (g : goroutine) : Prop :=
  match g_pc g with
  | Idle | AtDo | AtLock => True
  | AtCheck => o_m s = Some i
  | AtConstruct => o_m s = Some i ∧ o_done s = false ∧ o_attempts s = []
  | AtStoreDone =>
      o_m s = Some i ∧ o_done s = false ∧ o_attempts s = [g_ctx g] ∧
      o_metricClient s = (dial [] (g_ctx g)).1 ∧ o_clientErr s = (dial [] (g_ctx g)).2
  | AtUnlock => o_m s = Some i ∧ o_done s = true
  | AtTest => o_done s = true
  end.

Definition holds_m (p : pc) : bool :=
  match p with
  | AtCheck | AtConstruct | AtStoreDone | AtUnlock => true
  | _ => false
  end.

(** The invariant of the interleaving. *)
Record once_inv (cfg : config) : Prop := {
  inv_points : ∀ i g, pool cfg !! i = Some g → at_point (shared cfg) i g;
  inv_holder : ∀ i, o_m (shared cfg) = Some i →
    ∃ g, pool cfg !! i = Some g ∧ holds_m (g_pc g) = true;
  inv_done : o_done (shared cfg) = true →
    ∃ ctx0, o_attempts (shared cfg) = [ctx0] ∧
      o_metricClient (shared cfg) = (dial [] ctx0).1 ∧
      o_clientErr (shared cfg) = (dial [] ctx0).2;
  inv_attempts : o_attempts (shared cfg) = [] ∨ o_done (shared cfg) = true ∨
    ∃ i g, pool cfg !! i = Some g ∧ g_pc g = AtStoreDone;
  inv_seen : ∀ i g c, pool cfg !! i = Some g → c ∈ g_seen g →
    o_done (shared cfg) = true ∧ c = o_metricClient (shared cfg)
}.

End Goroutines.

(** ** More vocabulary *)

(** The client handles the remote writes of a trace went through. *)
Fixpoint write_clients (tr : list event) : list Client :=
  match tr with
  | [] => []
  | EvCreateTimeSeries c _ _ _ :: tr' => c :: write_clients tr'
  | _ :: tr' => write_clients tr'
  end.


(** The value a call records: its argument, and the constant 1 of
    [PushCounter]. *)
Definition call_value (c : call) : GoValue :=
  match c with
  | CallPushMetric _ _ value _ => value
  | CallPushCounter _ _ _ => VInt 1
  end.

(** More stand-ins for the SDK: a construction that returns a handle and
    an error together, and one that names the handle after the context
    of the goroutine that constructed it. *)
Definition dial_handle_and_error : proc -> Context -> option Client * option error :=
  fun _ _ => (Some (MetricClient 1), Some "deprecated credentials").

Definition dial_by_ctx : list Context -> Context -> option Client * option error :=
  fun _ ctx => (Some (MetricClient ctx), None).

(** The example process with [clientInit] done and a client in place. *)
Definition ex_ready : proc :=
  (PushCounter dial_ok write_ok 7%nat "purchase_attempt" (Some 0%nat) ex_proc).2.

(** * Facts *)

(** ** Conversions *)

Lemma int64_in_range (z : Z) : in_signed 64 z → int64 z = z.
Proof.
  unfold in_signed, int64. intros Hz.
  rewrite Z.mod_small; lia.
Qed.

Lemma int64_of_int32 (z : Z) : in_signed 32 z → int64 z = z.
Proof.
  unfold in_signed. intros Hz. apply int64_in_range. unfold in_signed.
  assert (2 ^ (32 - 1) <= 2 ^ (64 - 1)) by (apply Z.pow_le_mono_r; lia). lia.
Qed.

Lemma digits2_pos_iter_xO (m d : positive) :
  digits2_pos (Pos.iter xO m d) = (digits2_pos m + d)%positive.
Proof.
  induction d as [|d IH] using Pos.peano_ind.
  - simpl. lia.
  - rewrite Pos.iter_succ. simpl. rewrite IH. lia.
Qed.

Lemma Zpos_iter_xO (m d : positive) :
  Zpos (Pos.iter xO m d) = Zpos m * 2 ^ Zpos d.
Proof.
  induction d as [|d IH] using Pos.peano_ind.
  - simpl. lia.
  - rewrite Pos.iter_succ, Pos2Z.inj_xO, IH, Pos2Z.inj_succ, Z.pow_succ_r by lia. lia.
Qed.

Lemma float32_bounds (m : positive) (e : Z) :
  bounded 24 128 m e = true →
  Zpos (digits2_pos m) <= 24 ∧ -149 <= e <= 104.
Proof.
  unfold bounded, canonical_mantissa, fexp, emin.
  intros [H1 H2]%andb_prop. apply Z.eqb_eq in H1. apply Z.leb_le in H2. lia.
Qed.

(** Rounding a [float32] to the [float64] format only realigns the
    mantissa: no bit is lost. *)
Lemma binary_round_float32 (s : bool) (m : positive) (e : Z) :
  bounded 24 128 m e = true →
  ∃ d : positive,
    Zpos d = e - fexp 53 1024 (Zpos (digits2_pos m) + e) ∧
    binary_round 53 1024 s m e = S754_finite s (Pos.iter xO m d) (e - Zpos d).
Proof.
  intros Hb. destruct (float32_bounds _ _ Hb) as [Hd He].
  set (e' := fexp 53 1024 (Zpos (digits2_pos m) + e)).
  assert (He' : e' < e) by (unfold e', fexp, emin; lia).
  destruct (e - e') as [|d|d] eqn:Hde; try lia.
  exists d. split; [done|].
  unfold binary_round, shl_align. fold e'.
  replace (e' - e) with (Zneg d) by lia.
  unfold binary_round_aux, shr_fexp. cbn [Zdigits2 shr_record_of_loc].
  rewrite digits2_pos_iter_xO.
  replace (Zpos (digits2_pos m + d) + e') with (Zpos (digits2_pos m) + e) by lia.
  fold e'. rewrite Z.sub_diag.
  cbn [shr shr_m loc_of_shr_record round_nearest_even Zdigits2].
  rewrite digits2_pos_iter_xO.
  replace (Zpos (digits2_pos m + d) + e') with (Zpos (digits2_pos m) + e) by lia.
  fold e'. rewrite Z.sub_diag. cbn [shr shr_m].
  replace (e' <=? 1024 - 53) with true by (symmetry; apply Z.leb_le; lia).
  f_equal. lia.
Qed.

Lemma float64_of_float32 (f : spec_float) :
  is_float32 f = true → is_float64 (float64 f) = true ∧ same_number f (float64 f).
Proof.
  unfold is_float32, is_float64, same_number.
  destruct f as [s|s| |s m e]; simpl; try done.
  intros Hb. destruct (float32_bounds _ _ Hb) as [Hd He].
  destruct (binary_round_float32 s m e Hb) as (d & Hde & ->).
  assert (Hf : fexp 53 1024 (Zpos (digits2_pos m) + e) = e - Zpos d) by lia.
  split.
  - simpl. unfold bounded, canonical_mantissa.
    rewrite digits2_pos_iter_xO.
    replace (Zpos (digits2_pos m + d) + (e - Zpos d))
      with (Zpos (digits2_pos m) + e) by lia.
    rewrite Hf, Z.eqb_refl. simpl. apply Z.leb_le. lia.
  - simpl. f_equal. f_equal. rewrite Zpos_iter_xO.
    assert (-1074 <= e - Zpos d) by (rewrite <- Hf; unfold fexp, emin; lia).
    rewrite <- Z.mul_assoc, <- Z.pow_add_r by lia. f_equal. f_equal. lia.
Qed.

Lemma supported_typedValueOf (v : GoValue) :
  supported v = true ↔ is_Some (typedValueOf v).
Proof.
  destruct v; simpl; split; intros H; try done; try (by eexists);
    by destruct H.
Qed.


Lemma resolve_Setenv (key value dflt : string) (st : proc) :
  value ≠ "" → resolve (environ (Setenv key value st)) key dflt = value.
Proof.
  intros Hne. unfold resolve, Setenv. simpl. rewrite lookup_insert_eq.
  by destruct (decide (value ≠ "")).
Qed.

Lemma resolve_Unsetenv (key dflt : string) (st : proc) :
  resolve (environ (Unsetenv key st)) key dflt = dflt.
Proof. unfold resolve, Unsetenv. simpl. by rewrite lookup_delete_eq. Qed.

Lemma events_of_app {A : Type} (c : M A) (st : proc) (evs : list event) :
  trace (c st).2 = trace st ++ evs → events_of c st = evs.
Proof. unfold events_of. intros ->. by rewrite drop_app_length. Qed.


Section Facts.

Variable monitoring_NewMetricClient : proc -> Context -> option Client * option error.
Variable monitoring_CreateTimeSeries :
  proc -> Client -> Context -> monpb.CreateTimeSeriesRequest -> option error.

Local Abbreviation initClient := (initClient monitoring_NewMetricClient).
Local Abbreviation PushMetric :=
  (PushMetric monitoring_NewMetricClient monitoring_CreateTimeSeries).
Local Abbreviation PushCounter :=
  (PushCounter monitoring_NewMetricClient monitoring_CreateTimeSeries).
Local Abbreviation client_for := (client_for monitoring_NewMetricClient).
Local Abbreviation do_call :=
  (do_call monitoring_NewMetricClient monitoring_CreateTimeSeries).
Local Abbreviation do_calls :=
  (do_calls monitoring_NewMetricClient monitoring_CreateTimeSeries).

Ltac unfold_M :=
  unfold mbind, M_bind, mret, M_ret, gets, modify, panic in *.

Lemma writes_app (tr1 tr2 : list event) : writes (tr1 ++ tr2) = writes tr1 ++ writes tr2.
Proof.
  induction tr1 as [|ev tr1 IH]; [done|].
  destruct ev; simpl; by rewrite ?IH.
Qed.

Lemma constructions_app (tr1 tr2 : list event) :
  constructions (tr1 ++ tr2) = constructions tr1 ++ constructions tr2.
Proof.
  induction tr1 as [|ev tr1 IH]; [done|].
  destruct ev; simpl; by rewrite ?IH.
Qed.

Lemma deref_insert_eq (h : gmap loc (gmap string string)) l m :
  deref (<[l := m]> h) l = m.
Proof. unfold deref. by rewrite lookup_insert_eq. Qed.

Lemma deref_insert_ne (h : gmap loc (gmap string string)) l l' m :
  l ≠ l' → deref (<[l := m]> h) l' = deref h l'.
Proof. intros Hne. unfold deref. by rewrite lookup_insert_ne. Qed.

Lemma getProjectID_run (st : proc) : getProjectID st = (Ok (projectID_of st), st).
Proof.
  unfold getProjectID, projectID_of, resolve, Getenv. unfold_M.
  destruct (environ st !! "GOOGLE_CLOUD_PROJECT") as [v|]; simpl; [|done].
  by destruct (decide (v ≠ "")).
Qed.

Lemma getFunctionName_run (st : proc) : getFunctionName st = (Ok (functionName_of st), st).
Proof.
  unfold getFunctionName, functionName_of, resolve, Getenv. unfold_M.
  destruct (environ st !! "FUNCTION_NAME") as [v|]; simpl; [|done].
  by destruct (decide (v ≠ "")).
Qed.

Lemma initClient_run (ctx : Context) (st : proc) :
  ∃ st1 evs,
    initClient ctx st = (Ok tt, st1) ∧
    environ st1 = environ st ∧ wallclock st1 = wallclock st ∧ heap st1 = heap st ∧
    clientInit st1 = true ∧ metricClient st1 = client_for st ctx ∧
    (clientInit st = true → st1 = st) ∧
    trace st1 = trace st ++ evs ∧ writes evs = [] ∧
    constructions evs = (if clientInit st then [] else [ctx]).
Proof.
  unfold initClient, clientInit_Do, client_for, NewMetricClient, log_Printf.
  unfold_M.
  destruct (clientInit st) eqn:Hinit.
  - exists st, []. rewrite app_nil_r. by repeat split.
  - simpl. destruct (monitoring_NewMetricClient st ctx) as [c [err|]]; simpl.
    + eexists _, [EvNewMetricClient ctx; EvLog _].
      repeat split; simpl; try done. by rewrite <- app_assoc.
    + eexists _, [EvNewMetricClient ctx]. by repeat split.
Qed.

Lemma PushMetric_disabled ctx metricName value labels st :
  client_for st ctx = None →
  ∃ st1, initClient ctx st = (Ok tt, st1) ∧
    PushMetric ctx metricName value labels st = (Ok tt, st1).
Proof.
  intros Hc.
  destruct (initClient_run ctx st) as (st1 & evs & Hrun & _ & _ & _ & _ & Hcl & _).
  exists st1. split; [done|].
  unfold PushMetric. unfold_M. rewrite Hrun. simpl. by rewrite Hcl, Hc.
Qed.

Lemma PushMetric_nil ctx metricName value c st :
  client_for st ctx = Some c →
  ∃ st1, initClient ctx st = (Ok tt, st1) ∧
    PushMetric ctx metricName value None st =
      (Panic "assignment to entry in nil map", st1).
Proof.
  intros Hc.
  destruct (initClient_run ctx st) as (st1 & evs & Hrun & _ & _ & _ & _ & Hcl & _).
  exists st1. split; [done|].
  unfold PushMetric. unfold_M. rewrite Hrun. simpl. rewrite Hcl, Hc.
  rewrite getProjectID_run, getFunctionName_run. done.
Qed.

Lemma PushMetric_ready ctx metricName value l c st :
  client_for st ctx = Some c →
  ∃ st' evs,
    PushMetric ctx metricName value (Some l) st = (Ok tt, st') ∧
    trace st' = trace st ++ evs ∧
    writes evs =
      match typedValueOf value with
      | None => []
      | Some tv =>
          [(request_for (projectID_of st) metricName (wallclock st) tv (Some l),
            injected (functionName_of st) (deref (heap st) l))]
      end ∧
    deref (heap st') l = injected (functionName_of st) (deref (heap st) l) ∧
    (∀ l', l' ≠ l → deref (heap st') l' = deref (heap st) l') ∧
    environ st' = environ st ∧ wallclock st' = wallclock st ∧
    clientInit st' = true ∧ metricClient st' = Some c ∧
    constructions evs = (if clientInit st then [] else [ctx]) ∧
    (typedValueOf value = None →
     last evs = Some (EvLog ("[metrics] unsupported value type: " +:+ type_name_of value))).
Proof.
  intros Hc.
  destruct (initClient_run ctx st)
    as (st1 & evs & Hrun & Henv & Hclk & Hheap & Hinit & Hcl & _ & Htr & Hw & Hcons).
  unfold PushMetric. unfold_M. rewrite Hrun. simpl. rewrite Hcl, Hc.
  rewrite getProjectID_run, getFunctionName_run.
  unfold time_Now, map_index, map_assign, log_Printf, CreateTimeSeries. unfold_M.
  assert (Hp : projectID_of st1 = projectID_of st)
    by (unfold projectID_of; by rewrite Henv).
  assert (Hf : functionName_of st1 = functionName_of st)
    by (unfold functionName_of; by rewrite Henv).
  rewrite Hp, Hf, Hclk, Hheap. unfold injected, request_for.
  destruct (deref (heap st) l !! "function_name") as [v|] eqn:Hk; simpl;
    rewrite ?Hheap;
    (destruct (typedValueOf value) as [tv|] eqn:Htv; simpl;
     [ match goal with
       | |- context [monitoring_CreateTimeSeries ?s ?c ?x ?r] =>
           destruct (monitoring_CreateTimeSeries s c x r) as [e|]
       end; simpl |]);
    eexists _, _; (split; [reflexivity|]); simpl;
    (split; [rewrite Htr, <- ?app_assoc; reflexivity|]);
    rewrite ?writes_app, ?constructions_app, ?Hw, ?Hcons, ?Hheap, ?app_nil_r;
    simpl; rewrite ?Hheap, ?Hk, ?deref_insert_eq, ?last_snoc;
    repeat split; try done; try (by rewrite Hcl);
    intros l' Hl'; by rewrite deref_insert_ne.
Qed.

Lemma PushCounter_as_PushMetric ctx metricName labels st :
  PushCounter ctx metricName labels st = PushMetric ctx metricName (VInt 1) labels st.
Proof. reflexivity. Qed.

(** What a call does when the client handle is nil after [initClient]. *)
Lemma do_call_disabled (c : call) (st : proc) :
  client_for st (call_ctx c) = None →
  ∃ st1, initClient (call_ctx c) st = (Ok tt, st1) ∧ do_call c st = (Ok tt, st1).
Proof.
  destruct c as [ctx name value labels|ctx name labels]; simpl; intros Hc.
  - by apply PushMetric_disabled.
  - rewrite PushCounter_as_PushMetric. by apply PushMetric_disabled.
Qed.

Lemma do_call_nil (c : call) (cl : Client) (st : proc) :
  client_for st (call_ctx c) = Some cl → call_labels c = None →
  ∃ st1, initClient (call_ctx c) st = (Ok tt, st1) ∧
    do_call c st = (Panic "assignment to entry in nil map", st1).
Proof.
  destruct c as [ctx name value labels|ctx name labels]; simpl; intros Hc ->.
  - by eapply PushMetric_nil.
  - rewrite PushCounter_as_PushMetric. by eapply PushMetric_nil.
Qed.

Lemma do_call_ready (c : call) (cl : Client) (l : loc) (st : proc) :
  client_for st (call_ctx c) = Some cl → call_labels c = Some l →
  ∃ st' evs,
    do_call c st = (Ok tt, st') ∧
    trace st' = trace st ++ evs ∧
    writes evs =
      match call_typed c with
      | None => []
      | Some tv =>
          [(request_for (projectID_of st) (call_name c) (wallclock st) tv (Some l),
            injected (functionName_of st) (deref (heap st) l))]
      end ∧
    deref (heap st') l = injected (functionName_of st) (deref (heap st) l) ∧
    environ st' = environ st ∧ clientInit st' = true ∧ metricClient st' = Some cl.
Proof.
  destruct c as [ctx name value labels|ctx name labels]; simpl; intros Hc ->.
  - destruct (PushMetric_ready ctx name value l cl st Hc)
      as (st' & evs & H1 & H2 & H3 & H4 & _ & H5 & _ & H6 & H7 & _).
    by exists st', evs.
  - rewrite PushCounter_as_PushMetric.
    destruct (PushMetric_ready ctx name (VInt 1) l cl st Hc)
      as (st' & evs & H1 & H2 & H3 & H4 & _ & H5 & _ & H6 & H7 & _).
    by exists st', evs.
Qed.

(** Every call, whatever its arguments and the state: it adds to the
    trace, leaves the environment alone, and either writes nothing or is
    a call with a client, a map and a typed value that writes one request. *)
Lemma do_call_inv (c : call) (st : proc) :
  ∃ r st' evs,
    do_call c st = (r, st') ∧ trace st' = trace st ++ evs ∧
    environ st' = environ st ∧
    (writes evs = [] ∨
     ∃ cl l tv,
       client_for st (call_ctx c) = Some cl ∧ call_labels c = Some l ∧
       call_typed c = Some tv ∧ r = Ok tt ∧
       writes evs =
         [(request_for (projectID_of st) (call_name c) (wallclock st) tv (Some l),
           injected (functionName_of st) (deref (heap st) l))] ∧
       deref (heap st') l = injected (functionName_of st) (deref (heap st) l)).
Proof.
  destruct (client_for st (call_ctx c)) as [cl|] eqn:Hc.
  - destruct (call_labels c) as [l|] eqn:Hl.
    + destruct (do_call_ready c cl l st Hc Hl)
        as (st' & evs & H1 & H2 & H3 & H4 & H5 & _).
      exists (Ok tt), st', evs. repeat split; try done.
      destruct (call_typed c) as [tv|] eqn:Htv; [right|by left].
      by exists cl, l, tv.
    + destruct (do_call_nil c cl st Hc Hl) as (st1 & Hi & Hrun).
      destruct (initClient_run (call_ctx c) st)
        as (st1' & evs & Hrun' & Henv & _ & _ & _ & _ & _ & Htr & Hw & _).
      rewrite Hi in Hrun'. injection Hrun' as <-.
      eexists _, st1, evs. repeat split; try done. by left.
  - destruct (do_call_disabled c st Hc) as (st1 & Hi & Hrun).
    destruct (initClient_run (call_ctx c) st)
      as (st1' & evs & Hrun' & Henv & _ & _ & _ & _ & _ & Htr & Hw & _).
    rewrite Hi in Hrun'. injection Hrun' as <-.
    eexists _, st1, evs. repeat split; try done. by left.
Qed.

(** ** The claims about one call *)

(** C1, as amended.  With a client and a label map in place, [PushMetric]
    on a value of a kind its type switch has a case for returns normally
    and sends one request, with one time series and one point, stamped
    with the current time, whose typed value is: the same integer, as a
    64-bit integer value, for [int], [int32] and [int64]; a double that is
    a valid [float64] and denotes the same number for a [float32]; the
    same double for a [float64]; the same string for a string; the integer
    1 for [true] and 0 for [false].  The kinds are those of [supported]:
    [int8], [int16] and the unsigned integers are not among them. *)
Theorem typed_value_widening ctx metricName value l cl st :
  well_formed value → supported value = true → client_for st ctx = Some cl →
  ∃ tv req w ts,
    (PushMetric ctx metricName value (Some l) st).1 = Ok tt ∧
    writes (events_of (PushMetric ctx metricName value (Some l)) st) = [(req, w)] ∧
    monpb.TimeSeries_ req = [ts] ∧
    monpb.Points ts =
      [ {| monpb.Interval := {| monpb.EndTime := timestamppb.New (wallclock st) |};
           monpb.Value := tv |} ] ∧
    match value with
    | VInt z | VInt32 z | VInt64 z => tv = monpb.TypedValue_Int64Value z
    | VFloat32 f =>
        ∃ d, tv = monpb.TypedValue_DoubleValue d ∧ is_float64 d = true ∧ same_number f d
    | VFloat64 f => tv = monpb.TypedValue_DoubleValue f
    | VString s => tv = monpb.TypedValue_StringValue s
    | VBool b => tv = monpb.TypedValue_Int64Value (if b then 1 else 0)
    | _ => False
    end.
Proof.
  intros Hwf Hsup Hc.
  destruct (PushMetric_ready ctx metricName value l cl st Hc)
    as (st' & evs & Hrun & Htr & Hw & _).
  apply supported_typedValueOf in Hsup as [tv Htv]. rewrite Htv in Hw.
  exists tv. eexists _, _, _.
  split; [by rewrite Hrun|].
  split; [erewrite events_of_app; [exact Hw|by rewrite Hrun]|].
  split; [reflexivity|]. split; [reflexivity|].
  destruct value; simpl in Htv, Hwf; try done; injection Htv as <-.
  - by destruct b.
  - by rewrite int64_in_range.
  - by rewrite int64_of_int32.
  - done.
  - exists (float64 f). split; [done|]. by apply float64_of_float32.
  - done.
  - done.
Qed.


(** C3.  Every request a call of [PushMetric] or [PushCounter] sends has
    the caller's label map as its labels, and what goes on the wire is:
    the caller's map as it was, with the caller's own value under
    "function_name", when the key was there; the caller's map with the
    resolved service name added under that key when it was not.  The
    caller's map is left in that same state.  A call with a client, a map
    that is not nil and a value to send does send one such request. *)
Theorem function_name_label (c : call) (st : proc) :
  (∀ req w, (req, w) ∈ writes (events_of (do_call c) st) →
     ∃ l ts,
       call_labels c = Some l ∧ monpb.TimeSeries_ req = [ts] ∧
       mpb.Labels (monpb.Metric ts) = Some l ∧
       w = deref (heap (do_call c st).2) l ∧
       match deref (heap st) l !! "function_name" with
       | Some v => w = deref (heap st) l ∧ w !! "function_name" = Some v
       | None =>
           w = <["function_name" := functionName_of st]> (deref (heap st) l) ∧
           w !! "function_name" = Some (functionName_of st)
       end) ∧
  (∀ cl l, client_for st (call_ctx c) = Some cl → call_labels c = Some l →
     call_typed c ≠ None →
     ∃ req, writes (events_of (do_call c) st) = [(req, deref (heap (do_call c st).2) l)]).
Proof.
  destruct (do_call_inv c st) as (r & st' & evs & Hrun & Htr & _ & Hcases).
  rewrite (events_of_app _ st evs) by (by rewrite Hrun). rewrite Hrun. simpl.
  split.
  - intros req w Hin.
    destruct Hcases as [Hw|(cl & l & tv & _ & Hl & _ & _ & Hw & Hh)].
    { rewrite Hw in Hin. by apply elem_of_nil in Hin. }
    rewrite Hw in Hin. apply list_elem_of_singleton in Hin. injection Hin as -> ->.
    exists l. eexists. split; [done|]. split; [reflexivity|]. split; [done|].
    split; [done|]. unfold injected.
    destruct (deref (heap st) l !! "function_name") as [v|] eqn:Hk; [done|].
    by rewrite lookup_insert_eq.
  - intros cl l Hc Hl Htv.
    destruct Hcases as [Hw|(cl' & l' & tv & _ & Hl' & _ & _ & Hw & Hh)].
    + destruct (do_call_ready c cl l st Hc Hl) as (st'' & evs' & Hrun' & Htr' & Hw' & _).
      rewrite Hrun in Hrun'. injection Hrun' as _ <-.
      rewrite Htr in Htr'. apply app_inv_head in Htr' as <-.
      rewrite Hw in Hw'. by destruct (call_typed c).
    + rewrite Hl in Hl'. injection Hl' as <-. rewrite Hh. by eexists.
Qed.

(** C4.  Once [clientInit] has run and left the client handle nil, any
    sequence of calls of [PushMetric] and [PushCounter] returns normally
    and leaves the whole process state as it was: nothing is added to the
    trace (no remote write, no second construction, not even a log line)
    and the handle stays nil. *)
Theorem disabled_client_is_permanent (cs : list call) (st : proc) :
  clientInit st = true → metricClient st = None →
  do_calls cs st = (Ok tt, st).
Proof.
  intros Hinit Hnil. induction cs as [|c cs IH]; [done|].
  assert (Hc : client_for st (call_ctx c) = None)
    by (unfold client_for; by rewrite Hinit).
  destruct (do_call_disabled c st Hc) as (st1 & Hi & Hrun).
  destruct (initClient_run (call_ctx c) st)
    as (st1' & evs & Hi' & _ & _ & _ & _ & _ & Hsame & _).
  rewrite Hi in Hi'. injection Hi' as <-. rewrite (Hsame Hinit) in Hrun.
  simpl. unfold mbind, M_bind. by rewrite Hrun.
Qed.

(** How a process gets there: the first call finds the construction
    failing.  It attempts the construction once, writes nothing, and
    leaves the handle nil with [clientInit] done. *)
Lemma construction_failure_disables (c : call) (st : proc) :
  clientInit st = false → (monitoring_NewMetricClient st (call_ctx c)).1 = None →
  ∃ st1, do_call c st = (Ok tt, st1) ∧
    clientInit st1 = true ∧ metricClient st1 = None ∧
    constructions (events_of (do_call c) st) = [call_ctx c] ∧
    writes (events_of (do_call c) st) = [] ∧ heap st1 = heap st.
Proof.
  intros Hinit Hnil.
  assert (Hc : client_for st (call_ctx c) = None)
    by (unfold client_for; by rewrite Hinit).
  destruct (do_call_disabled c st Hc) as (st1 & Hi & Hrun).
  destruct (initClient_run (call_ctx c) st)
    as (st1' & evs & Hi' & _ & _ & Hh & Hd & Hcl & _ & Htr & Hw & Hcons).
  rewrite Hi in Hi'. injection Hi' as <-.
  exists st1. rewrite (events_of_app _ st evs) by (by rewrite Hrun).
  rewrite Hinit in Hcons. rewrite Hc in Hcl. done.
Qed.

(** C5.  With a client in place, the project id resolving to
    "p48-development" and the service name to "Buy", the call
    [PushCounter(ctx, "purchase_attempt", {"sku": "abc123"})] returns
    normally and sends exactly the request of the example: one time series
    of type "custom.googleapis.com/purchase_attempt", the labels sku and
    function_name, one point of integer value 1, the global resource with
    the project id.  And whatever the call and the state, a request of
    [PushCounter] has one series with one point of integer value 1. *)
Theorem purchase_attempt_example ctx l cl st :
  client_for st ctx = Some cl →
  deref (heap st) l = {[ "sku" := "abc123" ]} →
  getProjectID st = (Ok "p48-development", st) →
  getFunctionName st = (Ok "Buy", st) →
  (PushCounter ctx "purchase_attempt" (Some l) st).1 = Ok tt ∧
  writes (events_of (PushCounter ctx "purchase_attempt" (Some l)) st) =
    [ ({| monpb.Name := "projects/p48-development";
          monpb.TimeSeries_ :=
            [ {| monpb.Metric :=
                   {| mpb.Type_ := "custom.googleapis.com/purchase_attempt";
                      mpb.Labels := Some l |};
                 monpb.Resource :=
                   {| gcprpb.Type_ := "global";
                      gcprpb.Labels := {[ "project_id" := "p48-development" ]} |};
                 monpb.Points :=
                   [ {| monpb.Interval :=
                          {| monpb.EndTime := timestamppb.New (wallclock st) |};
                        monpb.Value := monpb.TypedValue_Int64Value 1 |} ] |} ] |},
       {[ "sku" := "abc123"; "function_name" := "Buy" ]}) ] ∧
  (∀ ctx' metricName labels st0 req w,
     (req, w) ∈ writes (events_of (PushCounter ctx' metricName labels) st0) →
     ∃ ts iv,
       monpb.TimeSeries_ req = [ts] ∧
       monpb.Points ts =
         [ {| monpb.Interval := iv; monpb.Value := monpb.TypedValue_Int64Value 1 |} ]).
Proof.
  intros Hc Hm Hp Hf.
  rewrite getProjectID_run in Hp. injection Hp as Hp.
  rewrite getFunctionName_run in Hf. injection Hf as Hf.
  split; [|split].
  - destruct (do_call_ready (CallPushCounter ctx "purchase_attempt" (Some l)) cl l st Hc eq_refl)
      as (st' & evs & Hrun & _).
    simpl in Hrun. by rewrite Hrun.
  - destruct (do_call_ready (CallPushCounter ctx "purchase_attempt" (Some l)) cl l st Hc eq_refl)
      as (st' & evs & Hrun & Htr & Hw & _).
    simpl in Hrun, Hw.
    rewrite (events_of_app _ st evs) by (by rewrite Hrun).
    rewrite Hw, Hp, Hf, Hm. unfold request_for, injected.
    rewrite lookup_singleton_ne by done.
    rewrite <- (insert_empty "sku"), insert_insert_ne by done.
    by rewrite insert_empty.
  - intros ctx' metricName labels st0 req w Hin.
    destruct (do_call_inv (CallPushCounter ctx' metricName labels) st0)
      as (r & st' & evs & Hrun & Htr & _ & Hcases).
    simpl in Hrun.
    rewrite (events_of_app _ st0 evs) in Hin by (by rewrite Hrun).
    destruct Hcases as [Hw|(cl' & l' & tv & _ & _ & Htv & _ & Hw & _)].
    { rewrite Hw in Hin. by apply elem_of_nil in Hin. }
    simpl in Htv. injection Htv as <-.
    rewrite Hw in Hin. apply list_elem_of_singleton in Hin. injection Hin as -> ->.
    by eexists _, _.
Qed.


(** C7.  [PushCounter] is [PushMetric] with the value [1] (an [int]):
    on every context, metric name, label map and process state, and
    whatever the SDK answers, the two return the same way and leave the
    same state, so the same requests are sent and the label map and the
    client globals undergo the same changes. *)
Theorem PushCounter_is_PushMetric_of_1 ctx metricName labels st :
  PushCounter ctx metricName labels st = PushMetric ctx metricName (VInt 1) labels st.
Proof. apply PushCounter_as_PushMetric. Qed.

(** C9.  A call of [PushMetric] or [PushCounter] with a nil label map,
    when the client handle is not nil after [initClient], panics with the
    runtime's "assignment to entry in nil map"; it has written nothing
    and built no request. *)
Theorem nil_label_map_panics (c : call) (cl : Client) (st : proc) :
  client_for st (call_ctx c) = Some cl → call_labels c = None →
  (do_call c st).1 = Panic "assignment to entry in nil map" ∧
  writes (events_of (do_call c) st) = [] ∧
  heap (do_call c st).2 = heap st.
Proof.
  intros Hc Hl.
  destruct (do_call_nil c cl st Hc Hl) as (st1 & Hi & Hrun).
  destruct (initClient_run (call_ctx c) st)
    as (st1' & evs & Hi' & _ & _ & Hh & _ & _ & _ & Htr & Hw & _).
  rewrite Hi in Hi'. injection Hi' as <-.
  rewrite (events_of_app _ st evs) by (by rewrite Hrun).
  by rewrite Hrun.
Qed.

(** ** The calls in full *)

Lemma log_lines_app (tr1 tr2 : list event) :
  log_lines (tr1 ++ tr2) = log_lines tr1 ++ log_lines tr2.
Proof.
  induction tr1 as [|ev tr1 IH]; [done|].
  destruct ev; simpl; by rewrite ?IH.
Qed.

Lemma write_clients_app (tr1 tr2 : list event) :
  write_clients (tr1 ++ tr2) = write_clients tr1 ++ write_clients tr2.
Proof.
  induction tr1 as [|ev tr1 IH]; [done|].
  destruct ev; simpl; by rewrite ?IH.
Qed.

(** [initClient], with the state it leaves. *)
Lemma initClient_exact (ctx : Context) (st : proc) :
  initClient ctx st =
    (Ok tt,
     if clientInit st then st
     else
       let r := monitoring_NewMetricClient st ctx in
       let st1 := set_client r.1 r.2 (emit (EvNewMetricClient ctx) st) in
       set_clientInit true
         match r.2 with
         | Some err =>
             emit (EvLog ("[metrics] disabled – failed to create Monitoring client: "
                          +:+ err)) st1
         | None => st1
         end).
Proof.
  unfold initClient, clientInit_Do, NewMetricClient, log_Printf. unfold_M.
  destruct (clientInit st); [done|]. simpl.
  by destruct (monitoring_NewMetricClient st ctx) as [c [err|]].
Qed.

(** A call on a state where [clientInit] has run, with the state it
    leaves. *)
Lemma PushMetric_initialised ctx metricName value labels st :
  clientInit st = true →
  PushMetric ctx metricName value labels st =
    match metricClient st with
    | None => (Ok tt, st)
    | Some c =>
        match labels with
        | None => (Panic "assignment to entry in nil map", st)
        | Some l =>
            let st2 :=
              match deref (heap st) l !! "function_name" with
              | Some _ => st
              | None =>
                  set_heap (<[l := <["function_name" := functionName_of st]>
                                      (deref (heap st) l)]> (heap st)) st
              end in
            match typedValueOf value with
            | None =>
                (Ok tt,
                 emit (EvLog ("[metrics] unsupported value type: "
                              +:+ type_name_of value)) st2)
            | Some tv =>
                let req :=
                  request_for (projectID_of st) metricName (wallclock st) tv (Some l) in
                let st3 :=
                  emit (EvCreateTimeSeries c ctx req
                          (injected (functionName_of st) (deref (heap st) l))) st2 in
                (Ok tt,
                 match monitoring_CreateTimeSeries st2 c ctx req with
                 | Some e =>
                     emit (EvLog ("[metrics] could not write time series: " +:+ e)) st3
                 | None => st3
                 end)
            end
        end
    end.
Proof.
  intros Hinit. unfold PushMetric. unfold_M.
  rewrite initClient_exact, Hinit. simpl.
  destruct (metricClient st) as [c|]; [|done].
  rewrite getProjectID_run, getFunctionName_run.
  unfold time_Now, map_index, map_assign, log_Printf, CreateTimeSeries. unfold_M.
  destruct labels as [l|]; [|done]. unfold injected, request_for.
  destruct (deref (heap st) l !! "function_name") as [v|] eqn:Hk; simpl;
    (destruct (typedValueOf value) as [tv|]; simpl; [|done]);
    rewrite ?deref_insert_eq;
    match goal with
    | |- context [monitoring_CreateTimeSeries ?s ?c ?x ?r] =>
        by destruct (monitoring_CreateTimeSeries s c x r)
    end.
Qed.

(** A call is [initClient] followed by the call on the initialised state. *)
Lemma PushMetric_after_init ctx metricName value labels st :
  PushMetric ctx metricName value labels st =
  PushMetric ctx metricName value labels (initClient ctx st).2.
Proof.
  destruct (initClient_run ctx st)
    as (st1 & evs & Hrun & _ & _ & _ & Hinit & _).
  destruct (initClient_run ctx st1)
    as (st1' & evs' & Hrun' & _ & _ & _ & _ & _ & Hsame & _).
  rewrite (Hsame Hinit) in Hrun'.
  unfold PushMetric. unfold_M. rewrite Hrun. simpl. by rewrite Hrun'.
Qed.

Lemma do_call_as_PushMetric (c : call) (st : proc) :
  do_call c st =
  PushMetric (call_ctx c) (call_name c) (call_value c) (call_labels c) st.
Proof. by destruct c. Qed.

Lemma call_typed_value (c : call) : call_typed c = typedValueOf (call_value c).
Proof. by destruct c. Qed.

(** The events of a computation, read off the state it leaves. *)
Lemma events_of_eq {A : Type} (c : M A) (st : proc) (r : result A) (st' : proc)
    (evs : list event) :
  c st = (r, st') → trace st' = trace st ++ evs → events_of c st = evs.
Proof. intros Hrun Htr. apply events_of_app. by rewrite Hrun. Qed.

(** [initClient] before a call: what it adds to the trace and what it
    leaves alone. *)
Lemma do_call_init (c : call) (st : proc) :
  clientInit (initClient (call_ctx c) st).2 = true ∧
  do_call c st =
    PushMetric (call_ctx c) (call_name c) (call_value c) (call_labels c)
      (initClient (call_ctx c) st).2 ∧
  events_of (initClient (call_ctx c)) st =
    (if clientInit st then []
     else
       EvNewMetricClient (call_ctx c) ::
       match (monitoring_NewMetricClient st (call_ctx c)).2 with
       | Some err =>
           [EvLog ("[metrics] disabled – failed to create Monitoring client: " +:+ err)]
       | None => []
       end) ∧
  trace (initClient (call_ctx c) st).2 =
    trace st ++ events_of (initClient (call_ctx c)) st ∧
  environ (initClient (call_ctx c) st).2 = environ st ∧
  wallclock (initClient (call_ctx c) st).2 = wallclock st ∧
  heap (initClient (call_ctx c) st).2 = heap st ∧
  metricClient (initClient (call_ctx c) st).2 = client_for st (call_ctx c) ∧
  (clientInit st = true → (initClient (call_ctx c) st).2 = st).
Proof.
  rewrite do_call_as_PushMetric, <- PushMetric_after_init.
  unfold events_of, client_for. rewrite initClient_exact. simpl.
  destruct (clientInit st) eqn:Hinit.
  - rewrite drop_all, app_nil_r. by repeat split.
  - destruct (monitoring_NewMetricClient st (call_ctx c)) as [h [err|]]; simpl;
      rewrite <- ?app_assoc, drop_app_length; by repeat split.
Qed.

(** Every call, by the cases of the code: the client handle is nil; the
    label map is nil; the value is of an unsupported kind; a request is
    sent.  Each case with how the call ends, what it adds to the trace
    after the events of [initClient], and the state it leaves. *)
Lemma do_call_cases (c : call) (st : proc) :
  let st1 := (initClient (call_ctx c) st).2 in
  let ev0 := events_of (initClient (call_ctx c)) st in
  (client_for st (call_ctx c) = None ∧
   do_call c st = (Ok tt, st1) ∧ events_of (do_call c) st = ev0) ∨
  (∃ cl, client_for st (call_ctx c) = Some cl ∧ call_labels c = None ∧
     do_call c st = (Panic "assignment to entry in nil map", st1) ∧
     events_of (do_call c) st = ev0) ∨
  (∃ cl l st' tail,
     client_for st (call_ctx c) = Some cl ∧ call_labels c = Some l ∧
     do_call c st = (Ok tt, st') ∧
     trace st' = trace st ++ ev0 ++ tail ∧
     events_of (do_call c) st = ev0 ++ tail ∧
     environ st' = environ st ∧ wallclock st' = wallclock st ∧
     clientInit st' = true ∧ metricClient st' = Some cl ∧
     clientErr st' = clientErr st1 ∧
     heap st' =
       match deref (heap st) l !! "function_name" with
       | Some _ => heap st
       | None =>
           <[l := <["function_name" := functionName_of st]> (deref (heap st) l)]>
             (heap st)
       end ∧
     match call_typed c with
     | None =>
         tail = [EvLog ("[metrics] unsupported value type: "
                        +:+ type_name_of (call_value c))]
     | Some tv =>
         ∃ st2,
           tail =
             EvCreateTimeSeries cl (call_ctx c)
               (request_for (projectID_of st) (call_name c) (wallclock st) tv (Some l))
               (injected (functionName_of st) (deref (heap st) l)) ::
             match
               monitoring_CreateTimeSeries st2 cl (call_ctx c)
                 (request_for (projectID_of st) (call_name c) (wallclock st) tv (Some l))
             with
             | Some e => [EvLog ("[metrics] could not write time series: " +:+ e)]
             | None => []
             end
     end).
Proof.
  simpl.
  destruct (do_call_init c st)
    as (Hinit1 & Hcall & _ & Htr1 & Henv1 & Hclk1 & Hheap1 & Hcl1 & _).
  set (st1 := (initClient (call_ctx c) st).2) in *.
  set (ev0 := events_of (initClient (call_ctx c)) st) in *.
  rewrite (PushMetric_initialised _ _ _ _ st1 Hinit1) in Hcall.
  assert (Hp : projectID_of st1 = projectID_of st)
    by (unfold projectID_of; by rewrite Henv1).
  assert (Hf : functionName_of st1 = functionName_of st)
    by (unfold functionName_of; by rewrite Henv1).
  rewrite Hp, Hf, Hclk1, Hheap1, Hcl1 in Hcall. rewrite call_typed_value.
  destruct (client_for st (call_ctx c)) as [cl|] eqn:Hc.
  2: { left. split; [done|]. split; [done|].
       eapply events_of_eq; [exact Hcall|exact Htr1]. }
  right. destruct (call_labels c) as [l|] eqn:Hl.
  2: { left. exists cl. repeat split; try done.
       eapply events_of_eq; [exact Hcall|exact Htr1]. }
  right. exists cl, l.
  destruct (deref (heap st) l !! "function_name") as [v|] eqn:Hk;
    (destruct (typedValueOf (call_value c)) as [tv|] eqn:Htv; simpl in Hcall;
     [ match type of Hcall with
       | context [monitoring_CreateTimeSeries ?s ?c ?x ?r] =>
           destruct (monitoring_CreateTimeSeries s c x r) as [e|] eqn:Hrpc
       end |]);
    eexists _, _; (split; [done|]); (split; [done|]); (split; [exact Hcall|]);
    (split; [simpl; rewrite Htr1, <- ?app_assoc; reflexivity|]);
    (split; [apply events_of_app; rewrite Hcall; simpl;
             rewrite Htr1, <- ?app_assoc; reflexivity|]);
    simpl; rewrite ?Hheap1; repeat split; try done;
    eexists; rewrite Hrpc; reflexivity.
Qed.

(** ** Sequences of calls *)

Lemma do_call_trace (c : call) (st : proc) :
  trace (do_call c st).2 = trace st ++ events_of (do_call c) st.
Proof.
  destruct (do_call_init c st) as (_ & _ & _ & Htr1 & _).
  destruct (do_call_cases c st)
    as [(_ & Hrun & Hev)|[(cl & _ & _ & Hrun & Hev)|
        (cl & l & st' & tail & _ & _ & Hrun & Htr & Hev & _)]];
    rewrite Hev, Hrun; done.
Qed.

Lemma do_calls_cons (c : call) (cs : list call) (st : proc) :
  do_calls (c :: cs) st =
    match (do_call c st).1 with
    | Ok _ => do_calls cs (do_call c st).2
    | Panic msg => (Panic msg, (do_call c st).2)
    end.
Proof.
  simpl. unfold mbind, M_bind. by destruct (do_call c st) as [[[]|msg] st'].
Qed.

Lemma do_calls_trace (cs : list call) (st : proc) :
  trace (do_calls cs st).2 = trace st ++ events_of (do_calls cs) st.
Proof.
  revert st. induction cs as [|c cs IH]; intros st.
  - unfold events_of. simpl. by rewrite drop_all, app_nil_r.
  - assert (∃ evs, trace (do_calls (c :: cs) st).2 = trace st ++ evs) as [evs Hevs].
    { rewrite do_calls_cons. destruct ((do_call c st).1).
      - rewrite IH, do_call_trace, <- app_assoc. by eexists.
      - simpl. rewrite do_call_trace. by eexists. }
    by rewrite (events_of_app _ st evs Hevs).
Qed.

Lemma events_of_do_calls_cons (c : call) (cs : list call) (st : proc) :
  events_of (do_calls (c :: cs)) st =
    events_of (do_call c) st ++
    match (do_call c st).1 with
    | Ok _ => events_of (do_calls cs) (do_call c st).2
    | Panic _ => []
    end.
Proof.
  apply events_of_app. rewrite do_calls_cons.
  destruct ((do_call c st).1); simpl.
  - by rewrite do_calls_trace, do_call_trace, <- app_assoc.
  - by rewrite do_call_trace, app_nil_r.
Qed.

(** What one call does to the client globals and to the count of
    constructions. *)
Lemma do_call_globals (c : call) (st : proc) :
  clientInit (do_call c st).2 = true ∧
  metricClient (do_call c st).2 = client_for st (call_ctx c) ∧
  (clientInit st = true → clientErr (do_call c st).2 = clientErr st) ∧
  constructions (events_of (do_call c) st) =
    (if clientInit st then [] else [call_ctx c]) ∧
  (∀ cl, cl ∈ write_clients (events_of (do_call c) st) →
     client_for st (call_ctx c) = Some cl).
Proof.
  destruct (do_call_init c st) as (Hinit1 & _ & Hev0 & _ & _ & _ & _ & Hcl1 & Hsame).
  assert (Hc0 : constructions (events_of (initClient (call_ctx c)) st) =
                if clientInit st then [] else [call_ctx c]).
  { rewrite Hev0. destruct (clientInit st); [done|].
    by destruct ((monitoring_NewMetricClient st (call_ctx c)).2). }
  assert (Hw0 : write_clients (events_of (initClient (call_ctx c)) st) = []).
  { rewrite Hev0. destruct (clientInit st); [done|].
    by destruct ((monitoring_NewMetricClient st (call_ctx c)).2). }
  destruct (do_call_cases c st)
    as [(Hc & Hrun & Hev)|[(cl & Hc & _ & Hrun & Hev)|
        (cl & l & st' & tail & Hc & _ & Hrun & _ & Hev & _ & _ & Hi & Hm & He & _ & Htail)]];
    rewrite Hev, Hrun; simpl.
  - rewrite Hw0. repeat split; try done.
    + intros Hi. by rewrite (Hsame Hi).
    + intros cl Hin. by apply elem_of_nil in Hin.
  - rewrite Hw0. repeat split; try done.
    + intros Hi. by rewrite (Hsame Hi).
    + intros cl' Hin. by apply elem_of_nil in Hin.
  - rewrite constructions_app, write_clients_app, Hc0, Hw0.
    assert (Htl : constructions tail = [] ∧
                  ∀ cl', cl' ∈ write_clients tail → cl' = cl).
    { destruct (call_typed c) as [tv|].
      - destruct Htail as [st2 ->].
        match goal with
        | |- context [monitoring_CreateTimeSeries ?s ?c ?x ?r] =>
            destruct (monitoring_CreateTimeSeries s c x r)
        end; simpl; (split; [done|]);
          intros cl' Hin; by apply list_elem_of_singleton in Hin.
      - rewrite Htail. split; [done|]. intros cl' Hin. by apply elem_of_nil in Hin. }
    destruct Htl as [Hct Hwt]. rewrite Hct, app_nil_r. simpl.
    split_and!.
    + done.
    + congruence.
    + intros Hi'. rewrite He. by rewrite (Hsame Hi').
    + done.
    + intros cl' Hin. by rewrite (Hwt cl' Hin).
Qed.

(** X3.  Over any sequence of calls [monitoring.NewMetricClient] is
    called at most once: not at all when [clientInit] has run before
    (or no call is made), and else once, by the first call and with its
    context, whether that call and the ones after it succeed, find the
    package disabled or panic. *)
Theorem one_construction_per_process (cs : list call) (st : proc) :
  constructions (events_of (do_calls cs) st) =
    if clientInit st then []
    else match cs with
         | [] => []
         | c :: _ => [call_ctx c]
         end.
Proof.
  assert (Hdone : ∀ cs st, clientInit st = true →
            constructions (events_of (do_calls cs) st) = []).
  { clear. intros cs. induction cs as [|c cs IH]; intros st Hinit.
    - unfold events_of. simpl. by rewrite drop_all.
    - rewrite events_of_do_calls_cons, constructions_app.
      destruct (do_call_globals c st) as (Hi & _ & _ & Hc & _).
      rewrite Hc, Hinit. simpl.
      destruct ((do_call c st).1); [by apply IH|done]. }
  destruct (clientInit st) eqn:Hinit; [by apply Hdone|].
  destruct cs as [|c cs].
  - unfold events_of. simpl. by rewrite drop_all.
  - rewrite events_of_do_calls_cons, constructions_app.
    destruct (do_call_globals c st) as (Hi & _ & _ & Hc & _).
    rewrite Hc, Hinit. simpl.
    destruct ((do_call c st).1); [by rewrite Hdone|done].
Qed.

(** X4.  Once [clientInit] has run, no sequence of calls changes
    [metricClient] or [clientErr], and every remote write of the sequence
    goes through that one client handle. *)
Theorem client_globals_are_stable (cs : list call) (st : proc) :
  clientInit st = true →
  clientInit (do_calls cs st).2 = true ∧
  metricClient (do_calls cs st).2 = metricClient st ∧
  clientErr (do_calls cs st).2 = clientErr st ∧
  ∀ cl, cl ∈ write_clients (events_of (do_calls cs) st) → metricClient st = Some cl.
Proof.
  revert st. induction cs as [|c cs IH]; intros st Hinit.
  - unfold events_of. simpl. rewrite drop_all. repeat split; try done.
    intros cl Hin. by apply elem_of_nil in Hin.
  - rewrite events_of_do_calls_cons, write_clients_app, do_calls_cons.
    destruct (do_call_globals c st) as (Hi & Hm & He & _ & Hw).
    unfold client_for in Hm, Hw. rewrite Hinit in Hm, Hw. specialize (He Hinit).
    destruct ((do_call c st).1).
    + destruct (IH _ Hi) as (Hi' & Hm' & He' & Hw').
      rewrite Hm in Hm', Hw'. rewrite He in He'.
      repeat split; try done.
      intros cl [Hin|Hin]%elem_of_app; [by apply Hw|by apply Hw'].
    + simpl. rewrite app_nil_r. repeat split; done.
Qed.

(** What one call does to the heap, the environment and the clock. *)
Lemma do_call_frame (c : call) (st : proc) (l : loc) :
  environ (do_call c st).2 = environ st ∧
  wallclock (do_call c st).2 = wallclock st ∧
  (∀ k, k ≠ "function_name" →
     deref (heap (do_call c st).2) l !! k = deref (heap st) l !! k) ∧
  (is_Some (deref (heap st) l !! "function_name") →
     deref (heap (do_call c st).2) l = deref (heap st) l).
Proof.
  destruct (do_call_init c st) as (_ & _ & _ & _ & Henv1 & Hclk1 & Hheap1 & _).
  destruct (do_call_cases c st)
    as [(_ & Hrun & _)|[(cl & _ & _ & Hrun & _)|
        (cl & l0 & st' & tail & _ & _ & Hrun & _ & _ & Henv & Hclk & _ & _ & _ & Hh & _)]];
    rewrite Hrun; simpl; rewrite ?Hheap1; try done.
  rewrite Hh. split; [done|]. split; [done|].
  destruct (deref (heap st) l0 !! "function_name") as [v|] eqn:Hk; [done|].
  destruct (decide (l0 = l)) as [->|Hne].
  - rewrite deref_insert_eq. split.
    + intros k Hk'. by rewrite lookup_insert_ne.
    + rewrite Hk. by intros [? ?].
  - rewrite deref_insert_ne by done. done.
Qed.

(** X5.  No sequence of calls changes the environment or the clock, and
    in the heap of label maps it changes only entries under
    "function_name": every other key of every map keeps its value, and a
    map that holds "function_name" is never changed at all. *)
Theorem calls_touch_only_function_name (cs : list call) (st : proc) (l : loc) :
  environ (do_calls cs st).2 = environ st ∧
  wallclock (do_calls cs st).2 = wallclock st ∧
  (∀ k, k ≠ "function_name" →
     deref (heap (do_calls cs st).2) l !! k = deref (heap st) l !! k) ∧
  (is_Some (deref (heap st) l !! "function_name") →
     deref (heap (do_calls cs st).2) l = deref (heap st) l).
Proof.
  revert st. induction cs as [|c cs IH]; intros st; [done|].
  rewrite do_calls_cons.
  destruct (do_call_frame c st l) as (Henv & Hclk & Hk & Hfn).
  destruct ((do_call c st).1); [|done].
  destruct (IH (do_call c st).2) as (Henv' & Hclk' & Hk' & Hfn').
  split_and!.
  - congruence.
  - congruence.
  - intros k Hne. by rewrite Hk', Hk.
  - intros Hsome. rewrite Hfn'; [by apply Hfn|]. by rewrite Hfn.
Qed.

(** The remote writes of one call. *)
Lemma do_call_writes (c : call) (st : proc) :
  writes (events_of (do_call c) st) =
    match client_for st (call_ctx c), call_labels c, call_typed c with
    | Some _, Some l, Some tv =>
        [(request_for (projectID_of st) (call_name c) (wallclock st) tv (Some l),
          injected (functionName_of st) (deref (heap st) l))]
    | _, _, _ => []
    end.
Proof.
  destruct (do_call_init c st) as (_ & _ & Hev0 & _).
  assert (Hw0 : writes (events_of (initClient (call_ctx c)) st) = []).
  { rewrite Hev0. destruct (clientInit st); [done|].
    by destruct ((monitoring_NewMetricClient st (call_ctx c)).2). }
  destruct (do_call_cases c st)
    as [(Hc & _ & Hev)|[(cl & Hc & Hl & _ & Hev)|
        (cl & l & st' & tail & Hc & Hl & _ & _ & Hev & _ & _ & _ & _ & _ & _ & Htail)]];
    rewrite Hev, Hc; try done.
  - by rewrite Hl.
  - rewrite Hl, writes_app, Hw0. destruct (call_typed c) as [tv|].
    + destruct Htail as [st2 ->]. simpl.
      match goal with
      | |- context [monitoring_CreateTimeSeries ?s ?c ?x ?r] =>
          by destruct (monitoring_CreateTimeSeries s c x r)
      end.
    + by rewrite Htail.
Qed.

(** X7.  A call attempts at most one remote write, so a sequence of calls
    attempts at most as many writes as it has calls: nothing is retried
    and nothing is sent twice. *)
Theorem at_most_one_write_per_call (cs : list call) (st : proc) :
  (length (writes (events_of (do_calls cs) st)) ≤ length cs)%nat.
Proof.
  revert st. induction cs as [|c cs IH]; intros st.
  - unfold events_of. simpl. by rewrite drop_all.
  - rewrite events_of_do_calls_cons, writes_app, length_app.
    assert (Hone : (length (writes (events_of (do_call c) st)) ≤ 1)%nat).
    { rewrite do_call_writes.
      destruct (client_for st (call_ctx c)), (call_labels c), (call_typed c);
        simpl; lia. }
    destruct ((do_call c st).1); simpl.
    + specialize (IH (do_call c st).2). lia.
    + lia.
Qed.



(** ** What is logged, and when *)

(** X1.  A remote write that fails does not reach the caller: when the
    service answers every write with the error [e], a call that gets as
    far as a request returns normally, has attempted the write exactly
    once, and the last thing it did is log the error. *)
Theorem write_failure_is_swallowed (c : call) (cl : Client) (l : loc)
    (tv : monpb.TypedValue) (e : error) (st : proc) :
  client_for st (call_ctx c) = Some cl → call_labels c = Some l →
  call_typed c = Some tv →
  (∀ s cl' ctx' req, monitoring_CreateTimeSeries s cl' ctx' req = Some e) →
  (do_call c st).1 = Ok tt ∧
  length (writes (events_of (do_call c) st)) = 1%nat ∧
  last (events_of (do_call c) st) =
    Some (EvLog ("[metrics] could not write time series: " +:+ e)).
Proof.
  intros Hc Hl Htv Hrpc.
  destruct (do_call_cases c st)
    as [(Hc' & _)|[(cl' & _ & Hl' & _)|
        (cl' & l' & st' & tail & _ & _ & Hrun & _ & Hev & _ & _ & _ & _ & _ & _ & Htail)]];
    [congruence|congruence|].
  rewrite do_call_writes, Hc, Hl, Htv, Hrun, Hev.
  rewrite Htv in Htail. destruct Htail as [st2 ->]. rewrite Hrpc.
  split; [done|]. split; [done|].
  by rewrite last_app.
Qed.

(** X2.  The package logs failures only: when no client construction
    returns an error and no remote write fails, a sequence of calls
    whose values are all of supported kinds logs nothing, whatever the
    state it starts in and whatever the label maps. *)
Theorem quiet_when_nothing_fails (cs : list call) (st : proc) :
  (∀ s ctx, (monitoring_NewMetricClient s ctx).2 = None) →
  (∀ s cl ctx req, monitoring_CreateTimeSeries s cl ctx req = None) →
  Forall (λ c, call_typed c ≠ None) cs →
  log_lines (events_of (do_calls cs) st) = [].
Proof.
  intros Hnew Hrpc. revert st. induction cs as [|c cs IH]; intros st Hall.
  - unfold events_of. simpl. by rewrite drop_all.
  - apply Forall_cons in Hall as [Htv Hall].
    rewrite events_of_do_calls_cons, log_lines_app.
    assert (Hone : log_lines (events_of (do_call c) st) = []).
    { destruct (do_call_init c st) as (_ & _ & Hev0 & _).
      assert (Hl0 : log_lines (events_of (initClient (call_ctx c)) st) = []).
      { rewrite Hev0, Hnew. by destruct (clientInit st). }
      destruct (do_call_cases c st)
        as [(_ & _ & Hev)|[(cl & _ & _ & _ & Hev)|
            (cl & l & st' & tail & _ & _ & _ & _ & Hev & _ & _ & _ & _ & _ & _ & Htail)]];
        rewrite Hev; try done.
      rewrite log_lines_app, Hl0.
      destruct (call_typed c) as [tv|]; [|done].
      destruct Htail as [st2 ->]. by rewrite Hrpc. }
    rewrite Hone. simpl. destruct ((do_call c st).1); [by apply IH|done].
Qed.

(** X9.  Whether the package is enabled is decided by the handle alone,
    and whether "disabled" is logged by the error alone.  On the first
    call the construction is attempted, its error, if any, is logged as
    "disabled", and then: a handle that is not nil is used for the write
    even when an error came with it, and a nil handle ends the call even
    when no error came with it (and then nothing says so in the log). *)
Theorem handle_decides_not_error (c : call) (l : loc) (tv : monpb.TypedValue)
    (h : option Client) (e : option error) (st : proc) :
  clientInit st = false →
  monitoring_NewMetricClient st (call_ctx c) = (h, e) →
  call_labels c = Some l → call_typed c = Some tv →
  ∃ rest,
    events_of (do_call c) st =
      EvNewMetricClient (call_ctx c) ::
      match e with
      | Some err =>
          EvLog ("[metrics] disabled – failed to create Monitoring client: " +:+ err)
          :: rest
      | None => rest
      end ∧
    match h with
    | Some cl =>
        ∃ tail,
          rest =
            EvCreateTimeSeries cl (call_ctx c)
              (request_for (projectID_of st) (call_name c) (wallclock st) tv (Some l))
              (injected (functionName_of st) (deref (heap st) l)) :: tail
    | None => rest = []
    end.
Proof.
  intros Hinit Hnew Hl Htv.
  destruct (do_call_init c st) as (_ & _ & Hev0 & _).
  rewrite Hinit, Hnew in Hev0. simpl in Hev0.
  assert (Hc : client_for st (call_ctx c) = h)
    by (unfold client_for; by rewrite Hinit, Hnew).
  destruct (do_call_cases c st)
    as [(Hc' & _ & Hev)|[(cl' & _ & Hl' & _)|
        (cl' & l' & st' & tail & Hc' & Hl' & _ & _ & Hev & _ & _ & _ & _ & _ & _ & Htail)]];
    [|by rewrite Hl in Hl'|].
  - rewrite <- Hc, Hc'. exists []. rewrite Hev, Hev0.
    by destruct e.
  - rewrite <- Hc, Hc'. rewrite Hl in Hl'. injection Hl' as <-.
    rewrite Htv in Htail. destruct Htail as [st2 ->].
    eexists. rewrite Hev, Hev0. split.
    + destruct e; simpl; reflexivity.
    + by eexists.
Qed.

(** ** The label map across calls, and the shape of a request *)

(** X6.  A label map that is used again keeps the service name of its
    first use.  After a call with a client in place has injected
    "function_name" into the caller's map, a later call with that same
    map sends the name injected then, whatever the environment has
    become in between: the entry exists now, so the later call does not
    resolve the name again for the label. *)
Theorem reused_label_map_keeps_first_service_name (c1 c2 : call)
    (env : gmap string string) (cl : Client) (l : loc) (st : proc) :
  client_for st (call_ctx c1) = Some cl →
  call_labels c1 = Some l → call_labels c2 = Some l →
  deref (heap st) l !! "function_name" = None →
  deref (heap (do_call c1 st).2) l !! "function_name" = Some (functionName_of st) ∧
  ∀ req w,
    (req, w) ∈ writes (events_of (do_call c2) (with_environ env (do_call c1 st).2)) →
    w !! "function_name" = Some (functionName_of st).
Proof.
  intros Hc Hl1 Hl2 Hk.
  assert (Hh : deref (heap (do_call c1 st).2) l =
               <["function_name" := functionName_of st]> (deref (heap st) l)).
  { destruct (do_call_cases c1 st)
      as [(Hc' & _)|[(cl' & _ & Hl' & _)|
          (cl' & l' & st' & tail & _ & Hl' & Hrun & _ & _ & _ & _ & _ & _ & _ & Hh & _)]];
      [congruence|congruence|].
    rewrite Hl1 in Hl'. injection Hl' as <-.
    rewrite Hrun. simpl. rewrite Hh, Hk. apply deref_insert_eq. }
  split; [by rewrite Hh, lookup_insert_eq|].
  intros req w Hin. rewrite do_call_writes, Hl2 in Hin.
  destruct (client_for (with_environ env (do_call c1 st).2) (call_ctx c2));
    [|by apply elem_of_nil in Hin].
  destruct (call_typed c2); [|by apply elem_of_nil in Hin].
  apply list_elem_of_singleton in Hin. injection Hin as _ ->.
  simpl. rewrite Hh. unfold injected. by rewrite !lookup_insert_eq.
Qed.

(** X10.  Every request a call sends, whatever the call and the state,
    has exactly one time series with exactly one point; the series is of
    type "custom.googleapis.com/" followed by the metric name as given
    (no check of the name), its labels are the caller's map itself, and
    the point ends at the clock reading of the call and carries the
    call's typed value. *)
Theorem request_shape (c : call) (st : proc)
    (req : monpb.CreateTimeSeriesRequest) (w : gmap string string) :
  (req, w) ∈ writes (events_of (do_call c) st) →
  ∃ ts pt,
    monpb.TimeSeries_ req = [ts] ∧ monpb.Points ts = [pt] ∧
    mpb.Type_ (monpb.Metric ts) = "custom.googleapis.com/" +:+ call_name c ∧
    mpb.Labels (monpb.Metric ts) = call_labels c ∧
    monpb.EndTime (monpb.Interval pt) = timestamppb.New (wallclock st) ∧
    call_typed c = Some (monpb.Value pt).
Proof.
  intros Hin. rewrite do_call_writes in Hin.
  destruct (client_for st (call_ctx c)); [|by apply elem_of_nil in Hin].
  destruct (call_labels c) as [l|]; [|by apply elem_of_nil in Hin].
  destruct (call_typed c) as [tv|]; [|by apply elem_of_nil in Hin].
  apply list_elem_of_singleton in Hin. injection Hin as -> _.
  by eexists _, _.
Qed.

(** X11.  The two getters never return the empty string and change
    nothing: a variable that is set to the empty string counts as not
    set and gives the default, so no request is ever addressed to
    "projects/" with no project. *)
Theorem getters_never_empty (st : proc) :
  ∃ p f,
    getProjectID st = (Ok p, st) ∧ getFunctionName st = (Ok f, st) ∧
    p ≠ "" ∧ f ≠ "" ∧
    (environ st !! "GOOGLE_CLOUD_PROJECT" = Some "" → p = "p48-development") ∧
    (environ st !! "FUNCTION_NAME" = Some "" → f = "Buy") ∧
    ∀ c req w, (req, w) ∈ writes (events_of (do_call c) st) →
      monpb.Name req = "projects/" +:+ p.
Proof.
  exists (projectID_of st), (functionName_of st).
  rewrite getProjectID_run, getFunctionName_run.
  unfold projectID_of, functionName_of, resolve.
  split_and!; try done.
  - destruct (environ st !! "GOOGLE_CLOUD_PROJECT") as [v|]; [|done].
    by destruct (decide (v ≠ "")).
  - destruct (environ st !! "FUNCTION_NAME") as [v|]; [|done].
    by destruct (decide (v ≠ "")).
  - by intros ->.
  - by intros ->.
  - intros c req w Hin. rewrite do_call_writes in Hin.
    destruct (client_for st (call_ctx c)); [|by apply elem_of_nil in Hin].
    destruct (call_labels c) as [l|]; [|by apply elem_of_nil in Hin].
    destruct (call_typed c) as [tv|]; [|by apply elem_of_nil in Hin].
    apply list_elem_of_singleton in Hin. by injection Hin as -> _.
Qed.

(** ** The typed value loses nothing *)

Lemma float32_canonical (m : positive) (e : Z) :
  bounded 24 128 m e = true → fexp 24 128 (Zpos (digits2_pos m) + e) = e.
Proof.
  unfold bounded, canonical_mantissa.
  intros [H1 _]%andb_prop. by apply Z.eqb_eq in H1.
Qed.

(** Widening is one to one on the [float32] values. *)
Lemma float64_inj (f1 f2 : spec_float) :
  is_float32 f1 = true → is_float32 f2 = true → float64 f1 = float64 f2 → f1 = f2.
Proof.
  unfold is_float32.
  destruct f1 as [s1|s1| |s1 m1 e1], f2 as [s2|s2| |s2 m2 e2]; simpl;
    intros Hb1 Hb2 Heq; try done;
    try (destruct (binary_round_float32 s1 m1 e1 Hb1) as (d1 & Hd1 & Hr1);
         rewrite Hr1 in Heq; done);
    try (destruct (binary_round_float32 s2 m2 e2 Hb2) as (d2 & Hd2 & Hr2);
         rewrite Hr2 in Heq; done).
  destruct (binary_round_float32 s1 m1 e1 Hb1) as (d1 & Hd1 & Hr1).
  destruct (binary_round_float32 s2 m2 e2 Hb2) as (d2 & Hd2 & Hr2).
  rewrite Hr1, Hr2 in Heq. injection Heq as Hs Hm He.
  pose proof (f_equal digits2_pos Hm) as Hdig.
  rewrite !digits2_pos_iter_xO in Hdig.
  pose proof (float32_canonical m1 e1 Hb1) as Hc1.
  pose proof (float32_canonical m2 e2 Hb2) as Hc2.
  assert (Hsum : Zpos (digits2_pos m1) + e1 = Zpos (digits2_pos m2) + e2) by lia.
  rewrite Hsum, Hc2 in Hc1. subst e2.
  assert (d1 = d2) as -> by lia.
  pose proof (f_equal Zpos Hm) as Hz. rewrite !Zpos_iter_xO in Hz.
  apply Z.mul_reg_r in Hz; [|apply Z.pow_nonzero; lia].
  injection Hz as ->. by subst.
Qed.

(** X12.  The type switch loses nothing within a Go type: two values of
    the same supported type that a program can hold, and that are built
    into the same typed value, are the same value.  Two integers, two
    floats, two strings or two booleans never collapse to one point
    value. *)
Theorem typed_value_is_injective (v1 v2 : GoValue) :
  well_formed v1 → well_formed v2 →
  type_name_of v1 = type_name_of v2 → supported v1 = true →
  typedValueOf v1 = typedValueOf v2 → v1 = v2.
Proof.
  intros Hw1 Hw2 Hty Hsup Heq.
  destruct v1; try done; destruct v2; try done;
    simpl in Hw1, Hw2, Heq; injection Heq as Heq.
  - destruct b, b0; done.
  - rewrite !int64_in_range in Heq by done. by subst.
  - rewrite !int64_of_int32 in Heq by done. by subst.
  - by subst.
  - f_equal. by apply float64_inj.
  - by subst.
  - by subst.
Qed.


End Facts.

(** ** Goroutines: one construction, one outcome *)

Section GoroutineFacts.

Variable dial : list Context -> Context -> option Client * option error.

Local Abbreviation step := (step dial).
Local Abbreviation run := (run dial).
Local Abbreviation once_inv := (once_inv dial).

Lemma pool_lookup_insert (pool : list goroutine) (i j : nat) (g' gj : goroutine) :
  <[i := g']> pool !! j = Some gj →
  (j = i ∧ gj = g') ∨ (j ≠ i ∧ pool !! j = Some gj).
Proof.
  intros Hj. destruct (decide (i = j)) as [->|Hne].
  - left. split; [done|].
    assert (Hlt : (j < length pool)%nat).
    { apply lookup_lt_Some in Hj. by rewrite length_insert in Hj. }
    rewrite list_lookup_insert_eq in Hj by done. congruence.
  - right. rewrite list_lookup_insert_ne in Hj by done. done.
Qed.

Lemma pool_lookup_insert_eq (pool : list goroutine) (i : nat) (g g' : goroutine) :
  pool !! i = Some g → <[i := g']> pool !! i = Some g'.
Proof. intros Hi. apply list_lookup_insert_eq. by eapply lookup_lt_Some. Qed.

Lemma once_inv_spawn (ctxs : list Context) : once_inv (spawn ctxs).
Proof.
  split; simpl.
  - intros i g Hg. rewrite list_lookup_fmap in Hg.
    destruct (ctxs !! i); simplify_eq/=. done.
  - done.
  - done.
  - by left.
  - intros i g c Hg Hc. rewrite list_lookup_fmap in Hg.
    destruct (ctxs !! i); simplify_eq/=. by apply elem_of_nil in Hc.
Qed.

(** Moving goroutine [i] to the point [p], the globals becoming [s']. *)
Lemma once_inv_move (cfg : config) (i : nat) (g : goroutine) (p : pc) (s' : globals) :
  once_inv cfg → pool cfg !! i = Some g →
  at_point dial s' i (at_pc p g) →
  (∀ j gj, j ≠ i → pool cfg !! j = Some gj →
     at_point dial (shared cfg) j gj → at_point dial s' j gj) →
  (∀ k, o_m s' = Some k →
     (k = i ∧ holds_m p = true) ∨ (k ≠ i ∧ o_m (shared cfg) = Some k)) →
  (o_done s' = true →
     ∃ ctx0, o_attempts s' = [ctx0] ∧
       o_metricClient s' = (dial [] ctx0).1 ∧ o_clientErr s' = (dial [] ctx0).2) →
  (o_attempts s' = [] ∨ o_done s' = true ∨ p = AtStoreDone ∨
   ∃ j gj, j ≠ i ∧ pool cfg !! j = Some gj ∧ g_pc gj = AtStoreDone) →
  (∀ j gj c, pool cfg !! j = Some gj → c ∈ g_seen gj →
     o_done s' = true ∧ c = o_metricClient s') →
  once_inv {| shared := s'; pool := <[i := at_pc p g]> (pool cfg) |}.
Proof.
  intros [Hpts Hhold Hdone Hatt Hseen] Hg Hi Hothers Hm Hd Ha Hs.
  split; simpl.
  - intros j gj Hj. apply pool_lookup_insert in Hj as [[-> ->]|[Hne Hj]]; [done|].
    apply Hothers; auto.
  - intros k Hk. destruct (Hm k Hk) as [[-> Hp]|[Hne Hk']].
    + exists (at_pc p g). split; [by eapply pool_lookup_insert_eq|done].
    + destruct (Hhold k Hk') as (gk & Hgk & Hhk). exists gk.
      split; [|done]. by rewrite list_lookup_insert_ne.
  - done.
  - destruct Ha as [Ha|[Ha|[->|(j & gj & Hne & Hj & Hpc)]]]; auto.
    + right; right. exists i, (at_pc AtStoreDone g).
      split; [by eapply pool_lookup_insert_eq|done].
    + right; right. exists j, gj. split; [|done]. by rewrite list_lookup_insert_ne.
  - intros j gj c Hj Hc. apply pool_lookup_insert in Hj as [[-> ->]|[Hne Hj]].
    + simpl in Hc. by eapply Hs.
    + by eapply Hs.
Qed.

(** Who is at a point where it holds the mutex is the holder. *)
Lemma holder_unique (cfg : config) (i j : nat) (gj : goroutine) :
  once_inv cfg → o_m (shared cfg) = Some i → pool cfg !! j = Some gj →
  holds_m (g_pc gj) = true → j = i.
Proof.
  intros [Hpts _ _ _ _] Hm Hj Hh. specialize (Hpts j gj Hj).
  unfold at_point in Hpts. destruct (g_pc gj); simpl in Hh; try done;
    destruct_and?; congruence.
Qed.

(** With the mutex free, nobody is at such a point. *)
Lemma mutex_free (cfg : config) (j : nat) (gj : goroutine) :
  once_inv cfg → o_m (shared cfg) = None → pool cfg !! j = Some gj →
  holds_m (g_pc gj) = false.
Proof.
  intros [Hpts _ _ _ _] Hm Hj. specialize (Hpts j gj Hj).
  unfold at_point in Hpts. destruct (g_pc gj); simpl; try done;
    destruct_and?; congruence.
Qed.

(** A move that leaves the globals alone and keeps the goroutine on the
    same side of the mutex. *)
Lemma once_inv_move_same (cfg : config) (i : nat) (g : goroutine) (p : pc) :
  once_inv cfg → pool cfg !! i = Some g →
  at_point dial (shared cfg) i (at_pc p g) →
  holds_m p = holds_m (g_pc g) → g_pc g ≠ AtStoreDone →
  once_inv {| shared := shared cfg; pool := <[i := at_pc p g]> (pool cfg) |}.
Proof.
  intros Hinv Hg Hi Hh Hpc. apply once_inv_move; try done.
  - intros k Hk. destruct (decide (k = i)) as [->|Hne]; [left|by right].
    split; [done|]. destruct (inv_holder _ _ Hinv i Hk) as (g' & Hg' & Hh').
    congruence.
  - apply Hinv.
  - destruct (inv_attempts _ _ Hinv) as [Ha|[Ha|(j & gj & Hj & Hpj)]]; auto.
    do 3 right. exists j, gj. split; [|done]. intros ->. congruence.
  - apply Hinv.
Qed.

Lemma once_inv_step (i : nat) (cfg : config) : once_inv cfg → once_inv (step i cfg).
Proof.
  intros Hinv. unfold step.
  destruct (pool cfg !! i) as [g|] eqn:Hg; [|done].
  pose proof (inv_points _ _ Hinv i g Hg) as Hi. unfold at_point in Hi.
  destruct (g_pc g) eqn:Hpc.
  - (* Idle *)
    apply once_inv_move_same; try done; by rewrite Hpc.
  - (* AtDo *)
    destruct (o_done (shared cfg)) eqn:Hd;
      apply once_inv_move_same; try done; by rewrite Hpc.
  - (* AtLock *)
    destruct (o_m (shared cfg)) as [k|] eqn:Hm; [done|].
    apply once_inv_move; try done; simpl.
    + intros j gj Hne Hj Hpj.
      pose proof (mutex_free cfg j gj Hinv Hm Hj) as Hfree.
      unfold at_point in *. destruct (g_pc gj); simpl in *; done.
    + intros k [= <-]. by left.
    + apply Hinv.
    + destruct (inv_attempts _ _ Hinv) as [Ha|[Ha|(j & gj & Hj & Hpj)]]; auto.
      pose proof (mutex_free cfg j gj Hinv Hm Hj) as Hfree.
      rewrite Hpj in Hfree. done.
    + apply Hinv.
  - (* AtCheck *)
    destruct (o_done (shared cfg)) eqn:Hd.
    + apply once_inv_move_same; try done; by rewrite Hpc.
    + apply once_inv_move_same; try done; [|by rewrite Hpc|by rewrite Hpc].
      unfold at_point. simpl. repeat split; try done.
      destruct (inv_attempts _ _ Hinv) as [Ha|[Ha|(j & gj & Hj & Hpj)]];
        [done|congruence|].
      assert (j = i) as -> by (eapply holder_unique; eauto; by rewrite Hpj).
      congruence.
  - (* AtConstruct *)
    destruct Hi as (Hm & Hd & Ha).
    apply once_inv_move; try done; simpl.
    + unfold at_point. simpl. rewrite Ha. done.
    + intros j gj Hne Hj Hpj. unfold at_point in *.
      destruct (g_pc gj) eqn:Hpj'; simpl in *; try done;
        try (exfalso; apply Hne; eapply holder_unique; eauto; by rewrite Hpj');
        congruence.
    + intros k Hk. destruct (decide (k = i)) as [->|Hne]; [by left|by right].
    + congruence.
    + auto.
    + intros j gj c Hj Hc. destruct (inv_seen _ _ Hinv j gj c Hj Hc). congruence.
  - (* AtStoreDone *)
    destruct Hi as (Hm & Hd & Ha & Hmc & Herr).
    apply once_inv_move; try done; simpl.
    + intros j gj Hne Hj Hpj. unfold at_point in *.
      destruct (g_pc gj) eqn:Hpj'; simpl in *; try done;
        exfalso; apply Hne; eapply holder_unique; eauto; by rewrite Hpj'.
    + intros k Hk. destruct (decide (k = i)) as [->|Hne]; [by left|by right].
    + intros _. by exists (g_ctx g).
    + auto.
    + intros j gj c Hj Hc. destruct (inv_seen _ _ Hinv j gj c Hj Hc). congruence.
  - (* AtUnlock *)
    destruct Hi as (Hm & Hd).
    apply once_inv_move; try done; simpl.
    + intros j gj Hne Hj Hpj. unfold at_point in *.
      destruct (g_pc gj) eqn:Hpj'; simpl in *; try done;
        exfalso; apply Hne; eapply holder_unique; eauto; by rewrite Hpj'.
    + apply Hinv.
    + destruct (inv_attempts _ _ Hinv) as [Ha|[Ha|(j & gj & Hj & Hpj)]]; auto.
    + apply Hinv.
  - (* AtTest *)
    destruct Hinv as [Hpts Hhold Hdone Hatt Hseen]. split; simpl.
    + intros j gj Hj. apply pool_lookup_insert in Hj as [[-> ->]|[Hne Hj]]; [done|].
      by apply Hpts.
    + intros k Hk. destruct (Hhold k Hk) as (gk & Hgk & Hhk).
      destruct (decide (k = i)) as [->|Hne].
      * rewrite Hg in Hgk. injection Hgk as <-. by rewrite Hpc in Hhk.
      * exists gk. split; [|done]. by rewrite list_lookup_insert_ne.
    + done.
    + destruct Hatt as [Ha|[Ha|(j & gj & Hj & Hpj)]];
        [by left|by right; left|].
      right; right. exists j, gj. split; [|done].
      rewrite list_lookup_insert_ne; [done|]. intros ->. congruence.
    + intros j gj c Hj Hc. apply pool_lookup_insert in Hj as [[-> ->]|[Hne Hj]].
      * simpl in Hc. apply elem_of_app in Hc as [Hc|Hc]; [by eapply Hseen|].
        apply list_elem_of_singleton in Hc as ->. done.
      * by eapply Hseen.
Qed.

Lemma once_inv_run (sched : list nat) (cfg : config) :
  once_inv cfg → once_inv (run sched cfg).
Proof.
  revert cfg. induction sched as [|i sched IH]; intros cfg Hinv; [done|].
  simpl. apply IH. by apply once_inv_step.
Qed.

(** A goroutine running alone through its first call does to the globals
    what [initClient] does in the one-process model, and finds the handle
    that [PushMetric] and [PushCounter] test. *)
Lemma goroutine_alone (ctx : Context) (env : gmap string string) (now : Z)
    (h : gmap loc (gmap string string)) :
  let st1 := (initClient (λ st, dial (constructions (trace st))) ctx (fresh env now h)).2 in
  let cfg := run (replicate 8 0%nat) (spawn [ctx]) in
  o_done (shared cfg) = clientInit st1 ∧
  o_m (shared cfg) = None ∧
  o_metricClient (shared cfg) = metricClient st1 ∧
  o_clientErr (shared cfg) = clientErr st1 ∧
  o_attempts (shared cfg) = constructions (trace st1) ∧
  o_log (shared cfg) = log_lines (trace st1) ∧
  pool cfg = [ {| g_ctx := ctx; g_pc := Idle; g_seen := [metricClient st1] |} ].
Proof.
  unfold initClient, clientInit_Do, NewMetricClient, log_Printf, mbind, M_bind,
    gets, modify. simpl.
  destruct (dial [] ctx) as [c [err|]]; simpl; repeat split; reflexivity.
Qed.

(** A step of a goroutine that is not waiting changes the configuration. *)
Lemma step_moves (i : nat) (cfg : config) (g : goroutine) :
  pool cfg !! i = Some g →
  (g_pc g = AtLock → o_m (shared cfg) = None) →
  step i cfg ≠ cfg.
Proof.
  intros Hg Hfree Heq. apply (f_equal (λ c, pool c !! i)) in Heq.
  unfold step in Heq. rewrite Hg in Heq.
  destruct (g_pc g) eqn:Hpc; simpl in Heq;
    try (destruct (o_done (shared cfg))); simpl in Heq;
    try (rewrite Hfree in Heq by done; simpl in Heq);
    erewrite pool_lookup_insert_eq in Heq by done;
    injection Heq as Heq; apply (f_equal g_pc) in Heq; simpl in Heq; congruence.
Qed.

(** X14.  No deadlock under any interleaving: a goroutine can move, or it
    waits for the mutex of [clientInit] and the goroutine holding it can. *)
Lemma goroutines_never_deadlock (ctxs : list Context) (sched : list nat)
    (i : nat) (g : goroutine) :
  pool (run sched (spawn ctxs)) !! i = Some g →
  step i (run sched (spawn ctxs)) ≠ run sched (spawn ctxs) ∨
  ∃ k, o_m (shared (run sched (spawn ctxs))) = Some k ∧ k ≠ i ∧
    step k (run sched (spawn ctxs)) ≠ run sched (spawn ctxs).
Proof.
  pose proof (once_inv_run sched _ (once_inv_spawn ctxs)) as Hinv.
  set (cfg := run sched (spawn ctxs)) in *. intros Hg.
  destruct (o_m (shared cfg)) as [k|] eqn:Hk;
    [destruct (decide (k = i)) as [->|Hne]|].
  - left. apply (step_moves i cfg g Hg). intros Hpc.
    destruct (inv_holder _ _ Hinv i Hk) as (g' & Hg' & Hh').
    rewrite Hg in Hg'. injection Hg' as <-. by rewrite Hpc in Hh'.
  - right. exists k. destruct (inv_holder _ _ Hinv k Hk) as (gk & Hgk & Hhk).
    split; [done|]. split; [done|].
    apply (step_moves k cfg gk Hgk). intros Hpk. by rewrite Hpk in Hhk.
  - left. by apply (step_moves i cfg g Hg).
Qed.

Lemma holder_is_m (cfg : config) (i : nat) (g : goroutine) :
  once_inv cfg → pool cfg !! i = Some g → holds_m (g_pc g) = true →
  o_m (shared cfg) = Some i.
Proof.
  intros Hinv Hg Hh. pose proof (inv_points _ _ Hinv i g Hg) as Hp.
  unfold at_point in Hp. destruct (g_pc g); simpl in Hh; try done;
    by destruct_and?.
Qed.

(** X13.  The package globals are free of races under every
    interleaving.  No two goroutines are ever between taking and
    releasing the mutex of [clientInit] together, so the function literal
    that assigns [metricClient] and [clientErr] never runs twice at once;
    and from the moment any call is back from [initClient], about to
    read [metricClient] or having read it, no goroutine is at the
    assignment any more: the handle is written before it is ever read
    and not after. *)
Theorem globals_are_race_free (ctxs : list Context) (sched : list nat) :
  (∀ i j gi gj,
     pool (run sched (spawn ctxs)) !! i = Some gi →
     pool (run sched (spawn ctxs)) !! j = Some gj →
     holds_m (g_pc gi) = true → holds_m (g_pc gj) = true → i = j) ∧
  (∀ i gi,
     pool (run sched (spawn ctxs)) !! i = Some gi →
     g_pc gi = AtTest ∨ g_seen gi ≠ [] →
     ∀ j gj, pool (run sched (spawn ctxs)) !! j = Some gj → g_pc gj ≠ AtConstruct).
Proof.
  pose proof (once_inv_run sched _ (once_inv_spawn ctxs)) as Hinv.
  set (cfg := run sched (spawn ctxs)) in *. split.
  - intros i j gi gj Hi Hj Hhi Hhj.
    pose proof (holder_is_m cfg j gj Hinv Hj Hhj) as Hm.
    by apply (holder_unique cfg j i gi Hinv Hm Hi).
  - intros i gi Hi Hpast j gj Hj Hpc.
    assert (Hd : o_done (shared cfg) = true).
    { destruct Hpast as [Hpi|Hne].
      - pose proof (inv_points _ _ Hinv i gi Hi) as Hp. unfold at_point in Hp.
        by rewrite Hpi in Hp.
      - destruct (g_seen gi) as [|c cs] eqn:Hs; [done|].
        apply (inv_seen _ _ Hinv i gi c Hi). rewrite Hs. apply list_elem_of_here. }
    pose proof (inv_points _ _ Hinv j gj Hj) as Hp. unfold at_point in Hp.
    rewrite Hpc in Hp. destruct Hp as (_ & Hd' & _). congruence.
Qed.

End GoroutineFacts.

(** Two goroutines race for the first call and a third comes later:
    goroutine 1 wins the mutex while goroutine 0 waits, and all three
    find the client that goroutine 1 constructed. *)
Example three_goroutines :
  let dial := λ (_ : list Context) (ctx : Context), (Some (MetricClient ctx), None) in
  let cfg :=
    run dial [0; 1; 0; 1; 1; 0; 1; 1; 0; 1; 1; 0; 0; 0; 0; 1; 2; 2; 2]%nat
      (spawn [10; 11; 12]%nat) in
  o_attempts (shared cfg) = [11%nat] ∧
  g_seen <$> pool cfg =
    [ [Some (MetricClient 11)]; [Some (MetricClient 11)]; [Some (MetricClient 11)] ] ∧
  g_pc <$> pool cfg = [Idle; Idle; Idle].
Proof. repeat split; reflexivity. Qed.

(** ** The claims on examples *)

Example float64_ex_float32 :
  is_float32 ex_float32 = true ∧
  float64 ex_float32 = S754_finite false 7074237948887040 (-51).
Proof. split; reflexivity. Qed.

Example float64_smallest_float32 :
  is_float32 (S754_finite true 1 (-149)) = true ∧
  float64 (S754_finite true 1 (-149)) = S754_finite true 4503599627370496 (-201).
Proof. split; reflexivity. Qed.

Example int64_wraps : int64 (2 ^ 63) = - 2 ^ 63.
Proof. reflexivity. Qed.

Lemma typed_value_widening_witness :
  well_formed (VFloat32 ex_float32) ∧
  ∃ tv req w ts,
    (PushMetric dial_ok write_ok 7%nat "latency" (VFloat32 ex_float32) (Some 1%nat)
       ex_proc).1 = Ok tt ∧
    writes (events_of
              (PushMetric dial_ok write_ok 7%nat "latency" (VFloat32 ex_float32)
                 (Some 1%nat)) ex_proc) = [(req, w)] ∧
    monpb.TimeSeries_ req = [ts] ∧
    monpb.Points ts =
      [ {| monpb.Interval := {| monpb.EndTime := timestamppb.New 1700000000 |};
           monpb.Value := tv |} ] ∧
    ∃ d, tv = monpb.TypedValue_DoubleValue d ∧ is_float64 d = true ∧
      same_number ex_float32 d.
Proof.
  split; [reflexivity|].
  apply (typed_value_widening dial_ok write_ok 7%nat "latency" (VFloat32 ex_float32)
           1%nat (MetricClient 1) ex_proc); reflexivity.
Defined.

(** C1 as the spec words it fails on an [int16]: the value is of a
    narrower integer width, a client and a label map are in place, and the
    call builds no point at all: it logs the rejection and sends nothing. *)
Lemma int16_is_not_widened :
  well_formed (VInt16 7) ∧
  client_for dial_ok ex_proc 7%nat = Some (MetricClient 1) ∧
  typedValueOf (VInt16 7) = None ∧
  PushMetric dial_ok write_ok 7%nat "stock" (VInt16 7) (Some 1%nat) ex_proc =
    (Ok tt,
     {| environ := ∅; wallclock := 1700000000;
        heap := {[ 0%nat := {[ "sku" := "abc123" ]};
                   1%nat := {[ "function_name" := "Buy" ]} ]};
        clientInit := true; metricClient := Some (MetricClient 1);
        clientErr := None;
        trace := [ EvNewMetricClient 7%nat;
                   EvLog "[metrics] unsupported value type: int16" ] |}).
Proof.
  split; [unfold well_formed, in_signed; simpl; lia|].
  split; [reflexivity|]. split; [reflexivity|]. by vm_compute.
Qed.



Lemma function_name_label_witness :
  ∃ req,
    writes (events_of
              (do_call dial_ok write_ok
                 (CallPushMetric 7%nat "latency" (VInt32 12) (Some 0%nat))) ex_proc) =
      [(req, {[ "sku" := "abc123"; "function_name" := "Buy" ]})] ∧
    ∃ l ts,
      monpb.TimeSeries_ req = [ts] ∧ mpb.Labels (monpb.Metric ts) = Some l ∧
      deref (heap ex_proc) l = {[ "sku" := "abc123" ]}.
Proof.
  pose proof (function_name_label dial_ok write_ok
                (CallPushMetric 7%nat "latency" (VInt32 12) (Some 0%nat)) ex_proc)
    as [Hall Hsome].
  destruct (Hsome (MetricClient 1) 0%nat eq_refl eq_refl ltac:(done)) as [req Hreq].
  exists req. split; [exact Hreq|].
  destruct (Hall req {[ "sku" := "abc123"; "function_name" := "Buy" ]})
    as (l & ts & Hl & Hts & Hlab & _).
  { rewrite Hreq. apply list_elem_of_here. }
  exists l, ts. injection Hl as <-. done.
Defined.

Lemma disabled_client_is_permanent_witness :
  trace ex_disabled =
    [ EvNewMetricClient 7%nat;
      EvLog "[metrics] disabled – failed to create Monitoring client: could not find default credentials" ] ∧
  do_calls dial_ok write_ok
    [ CallPushMetric 8%nat "latency" (VInt 3) (Some 0%nat);
      CallPushCounter 9%nat "purchase_attempt" None ] ex_disabled = (Ok tt, ex_disabled).
Proof.
  split; [reflexivity|].
  apply (disabled_client_is_permanent dial_ok write_ok); reflexivity.
Defined.

Lemma purchase_attempt_example_witness :
  writes (events_of (PushCounter dial_ok write_ok 7%nat "purchase_attempt" (Some 0%nat))
            ex_proc) =
    [ (request_for "p48-development" "purchase_attempt" 1700000000
         (monpb.TypedValue_Int64Value 1) (Some 0%nat),
       {[ "sku" := "abc123"; "function_name" := "Buy" ]}) ].
Proof.
  apply (purchase_attempt_example dial_ok write_ok 7%nat 0%nat (MetricClient 1) ex_proc);
    reflexivity.
Defined.


Lemma nil_label_map_panics_witness :
  (do_call dial_ok write_ok (CallPushCounter 7%nat "purchase_attempt" None) ex_proc).1 =
    Panic "assignment to entry in nil map".
Proof.
  apply (nil_label_map_panics dial_ok write_ok
           (CallPushCounter 7%nat "purchase_attempt" None) (MetricClient 1) ex_proc);
    reflexivity.
Defined.


(** A remote write that fails: the error is logged and the call returns
    normally. *)
Example remote_write_failure_is_logged :
  (PushMetric dial_ok write_fails 7%nat "latency" (VFloat64 (S754_zero false))
     (Some 0%nat) ex_proc).1 = Ok tt ∧
  last (events_of
          (PushMetric dial_ok write_fails 7%nat "latency" (VFloat64 (S754_zero false))
             (Some 0%nat)) ex_proc) =
    Some (EvLog "[metrics] could not write time series: rpc error: code = Unavailable").
Proof. split; reflexivity. Qed.

(** ** More examples *)

Lemma client_globals_are_stable_witness :
  clientInit ex_ready = true ∧
  metricClient
    (do_calls dial_fails write_ok
       [ CallPushMetric 8%nat "latency" (VInt 3) (Some 1%nat);
         CallPushCounter 9%nat "purchase_attempt" None ] ex_ready).2 =
    Some (MetricClient 1).
Proof.
  split; [reflexivity|].
  destruct (client_globals_are_stable dial_fails write_ok
              [ CallPushMetric 8%nat "latency" (VInt 3) (Some 1%nat);
                CallPushCounter 9%nat "purchase_attempt" None ] ex_ready eq_refl)
    as (_ & Hm & _).
  exact Hm.
Defined.


Lemma write_failure_is_swallowed_witness :
  (do_call dial_ok write_fails
     (CallPushCounter 7%nat "purchase_attempt" (Some 0%nat)) ex_proc).1 = Ok tt ∧
  last (events_of
          (do_call dial_ok write_fails
             (CallPushCounter 7%nat "purchase_attempt" (Some 0%nat))) ex_proc) =
    Some (EvLog "[metrics] could not write time series: rpc error: code = Unavailable").
Proof.
  destruct (write_failure_is_swallowed dial_ok write_fails
              (CallPushCounter 7%nat "purchase_attempt" (Some 0%nat))
              (MetricClient 1) 0%nat (monpb.TypedValue_Int64Value 1)
              "rpc error: code = Unavailable" ex_proc eq_refl eq_refl eq_refl)
    as (Hok & _ & Hlast).
  { intros; reflexivity. }
  split; [exact Hok|exact Hlast].
Defined.

Lemma quiet_when_nothing_fails_witness :
  log_lines
    (events_of
       (do_calls dial_ok write_ok
          [ CallPushCounter 7%nat "purchase_attempt" (Some 0%nat);
            CallPushMetric 8%nat "latency" (VFloat32 ex_float32) None ])
       ex_proc) = [].
Proof.
  apply (quiet_when_nothing_fails dial_ok write_ok).
  - intros; reflexivity.
  - intros; reflexivity.
  - repeat constructor; simpl; discriminate.
Defined.

Lemma handle_decides_not_error_witness :
  ∃ rest tail,
    events_of
      (do_call dial_handle_and_error write_ok
         (CallPushCounter 7%nat "purchase_attempt" (Some 0%nat))) ex_proc =
      EvNewMetricClient 7%nat ::
      EvLog "[metrics] disabled – failed to create Monitoring client: deprecated credentials"
      :: rest ∧
    rest =
      EvCreateTimeSeries (MetricClient 1) 7%nat
        (request_for "p48-development" "purchase_attempt" 1700000000
           (monpb.TypedValue_Int64Value 1) (Some 0%nat))
        {[ "sku" := "abc123"; "function_name" := "Buy" ]} :: tail.
Proof.
  destruct (handle_decides_not_error dial_handle_and_error write_ok
              (CallPushCounter 7%nat "purchase_attempt" (Some 0%nat))
              0%nat (monpb.TypedValue_Int64Value 1)
              (Some (MetricClient 1)) (Some "deprecated credentials") ex_proc
              eq_refl eq_refl eq_refl eq_refl)
    as (rest & Hev & tail & Hrest).
  exists rest, tail. split; [exact Hev|]. etrans; [exact Hrest|]. reflexivity.
Defined.

Lemma reused_label_map_keeps_first_service_name_witness :
  functionName_of
    (with_environ {[ "FUNCTION_NAME" := "Checkout" ]}
       (do_call dial_ok write_ok
          (CallPushMetric 7%nat "stock" (VInt16 7) (Some 1%nat)) ex_proc).2) =
    "Checkout" ∧
  ∀ req w,
    (req, w) ∈
      writes (events_of
                (do_call dial_ok write_ok
                   (CallPushCounter 8%nat "purchase_attempt" (Some 1%nat)))
                (with_environ {[ "FUNCTION_NAME" := "Checkout" ]}
                   (do_call dial_ok write_ok
                      (CallPushMetric 7%nat "stock" (VInt16 7) (Some 1%nat))
                      ex_proc).2)) →
    w !! "function_name" = Some "Buy".
Proof.
  split; [reflexivity|].
  apply (reused_label_map_keeps_first_service_name dial_ok write_ok
           (CallPushMetric 7%nat "stock" (VInt16 7) (Some 1%nat))
           (CallPushCounter 8%nat "purchase_attempt" (Some 1%nat))
           {[ "FUNCTION_NAME" := "Checkout" ]} (MetricClient 1) 1%nat ex_proc);
    reflexivity.
Defined.

Lemma request_shape_witness :
  ∃ ts pt,
    monpb.TimeSeries_
      (request_for "p48-development" "latency" 1700000000
         (monpb.TypedValue_Int64Value 3) (Some 1%nat)) = [ts] ∧
    monpb.Points ts = [pt] ∧
    mpb.Type_ (monpb.Metric ts) = "custom.googleapis.com/latency" ∧
    monpb.EndTime (monpb.Interval pt) = timestamppb.New 1700000000.
Proof.
  destruct (request_shape dial_ok write_ok
              (CallPushMetric 8%nat "latency" (VInt 3) (Some 1%nat)) ex_proc
              (request_for "p48-development" "latency" 1700000000
                 (monpb.TypedValue_Int64Value 3) (Some 1%nat))
              {[ "function_name" := "Buy" ]})
    as (ts & pt & Hts & Hpt & Hty & _ & Hend & _).
  { vm_compute. apply list_elem_of_here. }
  exists ts, pt. split; [exact Hts|]. split; [exact Hpt|].
  split; [exact Hty|exact Hend].
Defined.

Lemma typed_value_is_injective_witness :
  well_formed (VFloat32 ex_float32) ∧
  typedValueOf (VFloat32 ex_float32) =
    Some (monpb.TypedValue_DoubleValue (S754_finite false 7074237948887040 (-51))) ∧
  VFloat32 ex_float32 = VFloat32 ex_float32.
Proof.
  split; [reflexivity|]. split; [reflexivity|].
  apply typed_value_is_injective; reflexivity.
Defined.

Lemma goroutines_never_deadlock_witness :
  g_pc <$> pool (run dial_by_ctx [0; 1; 0; 1; 1]%nat (spawn [10; 11]%nat)) =
    [AtLock; AtCheck] ∧
  (step dial_by_ctx 0 (run dial_by_ctx [0; 1; 0; 1; 1]%nat (spawn [10; 11]%nat)) ≠
     run dial_by_ctx [0; 1; 0; 1; 1]%nat (spawn [10; 11]%nat) ∨
   ∃ k,
     o_m (shared (run dial_by_ctx [0; 1; 0; 1; 1]%nat (spawn [10; 11]%nat))) = Some k ∧
     k ≠ 0%nat ∧
     step dial_by_ctx k (run dial_by_ctx [0; 1; 0; 1; 1]%nat (spawn [10; 11]%nat)) ≠
       run dial_by_ctx [0; 1; 0; 1; 1]%nat (spawn [10; 11]%nat)).
Proof.
  split; [reflexivity|].
  apply (goroutines_never_deadlock dial_by_ctx [10; 11]%nat [0; 1; 0; 1; 1]%nat 0%nat
           {| g_ctx := 10%nat; g_pc := AtLock; g_seen := [] |}).
  reflexivity.
Defined.
